(** * NHANES dimension-reduction notebook: a shallow embedding

    The notebook [nhanes_dimred.ipynb] is a linear sequence of pandas and
    numpy calls.  This development embeds the cells that load, filter,
    standardize, sort, group and merge the tables, and the array arithmetic
    of the correlation and covariance matrices:

    - the cells of a pandas [DataFrame] are IEEE binary64 numbers, a missing
      value being NaN; they are modelled with the executable IEEE 754
      specification of the standard library ([spec_float] at precision 53
      and maximal exponent 1024);
    - numpy's array arithmetic ([np.corrcoef], [np.sum], [np.dot], [**],
      [/]) is written over an interface [Num] of scalar operations and
      instantiated at binary64, which is what the notebook runs.  numpy and
      the BLAS behind it do not fix the order of the additions of a sum or
      of an inner product, so the last bits of such a result are those of
      one admissible order; the statements below about these results are
      about their shape, their sign and range and where they are NaN, which
      do not turn on the last bits;
    - Python variables and the objects they are bound to live in a store, so
      that in-place operators ([-=], [/=]) update the object that a name
      refers to. *)

From Stdlib Require Import ZArith Lia.
From Stdlib Require Import Sorting.Sorted Sorting.Permutation.
From Stdlib Require Import Floats.SpecFloat.
From stdpp Require Import gmap strings list fin_maps sorting.

(** ** IEEE binary64 *)

Module B64.

Definition prec : Z := 53.
Definition emax : Z := 1024.

Definition add : spec_float → spec_float → spec_float := SFadd prec emax.
Definition sub : spec_float → spec_float → spec_float := SFsub prec emax.
Definition mul : spec_float → spec_float → spec_float := SFmul prec emax.
Definition div : spec_float → spec_float → spec_float := SFdiv prec emax.
Definition sqrt : spec_float → spec_float := SFsqrt prec emax.

(** The binary64 number nearest to an integer. *)
Definition of_Z (z : Z) : spec_float := binary_normalize prec emax z 0 false.

Definition nan : spec_float := S754_nan.

Definition is_nan (x : spec_float) : bool :=
  match x with S754_nan => true | _ => false end.

Definition is_zero (x : spec_float) : bool :=
  match x with S754_zero _ => true | _ => false end.

(** [np.isfinite]: neither an infinity nor NaN. *)
Definition is_finite (x : spec_float) : bool :=
  match x with S754_zero _ | S754_finite _ _ _ => true | _ => false end.

Definition ltb : spec_float → spec_float → bool := SFltb.
Definition leb : spec_float → spec_float → bool := SFleb.
Definition eqb : spec_float → spec_float → bool := SFeqb.

(** [np.maximum] and [np.minimum] propagate NaN. *)
Definition maximum (x y : spec_float) : spec_float :=
  if is_nan x then x else if is_nan y then y else if ltb x y then y else x.
Definition minimum (x y : spec_float) : spec_float :=
  if is_nan x then x else if is_nan y then y else if ltb y x then y else x.

(** The order numpy sorts floating-point numbers by: the IEEE order, with
    NaN after every number. *)
Definition sort_lt (a b : spec_float) : bool :=
  ltb a b || (is_nan b && negb (is_nan a)).

End B64.

Abbreviation float64 := spec_float.

(** ** Scalars of numpy's array arithmetic *)

Class Num (A : Type) : Type := {
  num_of_Z : Z → A;
  num_add : A → A → A;
  num_sub : A → A → A;
  num_mul : A → A → A;
  num_div : A → A → A;
  num_sqrt : A → A;
  num_maximum : A → A → A;
  num_minimum : A → A → A
}.

#[export] Instance float64_num : Num float64 := {
  num_of_Z := B64.of_Z;
  num_add := B64.add;
  num_sub := B64.sub;
  num_mul := B64.mul;
  num_div := B64.div;
  num_sqrt := B64.sqrt;
  num_maximum := B64.maximum;
  num_minimum := B64.minimum
}.

Section Numpy.
Context {A : Type} `{Num A}.

(** [np.sum] of a one-dimensional array.  numpy does not fix the order in
    which the terms are added; the model adds them from left to right. *)
Definition np_sum (xs : list A) : A := fold_left num_add xs (num_of_Z 0).

(** [a.mean()]: the sum divided by the number of elements. *)
Definition np_mean (xs : list A) : A :=
  num_div (np_sum xs) (num_of_Z (Z.of_nat (length xs))).

(** The inner product of two rows: the products, added from left to right.
    (The BLAS routine behind [np.dot] may add them in another order.) *)
Definition vdot (xs ys : list A) : A := np_sum (zip_with num_mul xs ys).

(** [np.clip(x, -1, 1)], that is [minimum(maximum(x, -1), 1)]. *)
Definition clip1 (x : A) : A :=
  num_minimum (num_maximum x (num_of_Z (-1))) (num_of_Z 1).

(** Cell 13 and cell 41: [eiv**2 / np.sum(eiv**2)]. *)
Definition variance_explained (eiv : list A) : list A :=
  let sq := (λ x, num_mul x x) <$> eiv in
  let total := np_sum sq in
  (λ q, num_div q total) <$> sq.

End Numpy.

(** ** pandas data frames

    A frame is a list of column labels and a list of rows; a row carries its
    index label and one binary64 cell per column.  Every column the notebook
    reads from the SAS transport files is numeric, so a missing value is a
    NaN cell. *)

Record Row : Type := { row_label : Z; cells : list float64 }.

Record DataFrame : Type := { columns : list string; rows : list Row }.

(** A pandas [Series] indexed by column labels, as [mean(0)] and [std(0)]
    return it: the labels and, position by position, the values. *)
Record Series : Type := { s_index : list string; s_values : list float64 }.

(** Position of the column labelled [c].  The tables [read_sas] returns and
    the selections made from them by lists of distinct labels have distinct
    column labels; were a label repeated, pandas would select every column
    that has it, while this is the position of the first. *)
Definition col_pos (cs : list string) (c : string) : option nat :=
  fst <$> list_find (λ x, x = c) cs.

(** [s[c]]: the value under the label [c]. *)
Definition series_get (s : Series) (c : string) : option float64 :=
  p ← col_pos (s_index s) c; s_values s !! p.

(** The cell of row [r] at position [p]. *)
Definition cell_at (r : Row) (p : nat) : float64 := default B64.nan (cells r !! p).

(** Column [p] of a frame, top to bottom. *)
Definition column (f : DataFrame) (p : nat) : list float64 :=
  (λ r, cell_at r p) <$> rows f.

(** [f.values]: the cells as a two-dimensional array, one row per list. *)
Definition frame_values (f : DataFrame) : list (list float64) := cells <$> rows f.

(** [f.loc[:, labels]] with a list of labels: a new frame made of the
    labelled columns, in the order of [labels], with the same row index.
    A label that is not a column raises [KeyError] ([None]).  With a list
    of labels pandas returns a copy, so the result is a frame of its own.
    [select_row] keeps of a row the cells at the positions [ps]. *)
Definition select_row (ps : list nat) (r : Row) : Row :=
  {| row_label := row_label r; cells := cell_at r <$> ps |}.

Definition loc_cols (f : DataFrame) (labels : list string) : option DataFrame :=
  ps ← mapM (col_pos (columns f)) labels;
  Some {| columns := labels; rows := select_row ps <$> rows f |}.

(** A row is complete when none of its cells is missing. *)
Definition complete (r : Row) : Prop :=
  Forall (λ x, B64.is_nan x = false) (cells r).

#[export] Instance complete_dec (r : Row) : Decision (complete r).
Proof. unfold complete. apply _. Defined.

(** [f.dropna()] with its defaults ([axis=0], [how='any']): the rows without
    a missing cell, in their original order and under their original
    labels. *)
Definition dropna (f : DataFrame) : DataFrame :=
  {| columns := columns f; rows := filter complete (rows f) |}.

(** [f.mean(0)] and [f.std(0)]: one reduction per column, labelled by the
    column.  [red] is the reduction of one column. *)
Definition reduce0 (red : list float64 → float64) (f : DataFrame) : Series :=
  {| s_index := columns f;
     s_values := (λ p, red (column f p)) <$> seq 0 (length (columns f)) |}.

(** [f - s] and [f / s] for a frame and a series: the series is aligned with
    the columns of the frame by label (an outer join).  A column of the frame
    without a partner in the series, and a label of the series that is no
    column of the frame, give a column of NaN.  [aligned op s c x] is the
    cell computed from the cell [x] of column [c]. *)
Definition aligned (op : float64 → float64 → float64) (s : Series)
    (c : string) (x : float64) : float64 :=
  match series_get s c with Some v => op x v | None => B64.nan end.

Definition frame_op_series (op : float64 → float64 → float64)
    (f : DataFrame) (s : Series) : DataFrame :=
  let extra := filter (λ c, c ∉ columns f) (s_index s) in
  {| columns := columns f ++ extra;
     rows := (λ r,
       {| row_label := row_label r;
          cells := zip_with (aligned op s) (columns f) (cells r)
                   ++ ((λ _, B64.nan) <$> extra) |}) <$> rows f |}.

(** [g.reindex_like(f)] on the column axis: the columns of [f], in the order
    of [f], read from [g] by label.  (The row index of [g] is that of [f]
    wherever the notebook reindexes, so the rows stay as they are.) *)
Definition reindex_like (g f : DataFrame) : DataFrame :=
  {| columns := columns f;
     rows := (λ r,
       {| row_label := row_label r;
          cells := (λ c, match col_pos (columns g) c with
                         | Some p => cell_at r p
                         | None => B64.nan
                         end) <$> columns f |}) <$> rows g |}.

(** The frame that [f -= s] and [f /= s] leave in the object [f]: pandas
    computes [op(f, s)] and updates [f] in place with the result reindexed
    like [f]. *)
Definition inplace_method (op : float64 → float64 → float64)
    (f : DataFrame) (s : Series) : DataFrame :=
  reindex_like (frame_op_series op f s) f.

(** ** The notebook's store

    A Python name is bound to an object; a [DataFrame] or an array is a
    mutable object, so names are bound to locations and the heap maps a
    location to the value the object has now.  Assignment rebinds a name;
    an in-place operator overwrites the object at the location the name is
    bound to. *)

Abbreviation loc := positive.

Inductive object : Type :=
  | OFrame (f : DataFrame)
  | OArray (m : list (list float64)).

(** What [print] writes. *)
Inductive printed : Type :=
  | PShape (nrows ncols : nat)
  | PDtypes (dtypes : list (string * string)).

Inductive exn : Type :=
  | FileNotFoundError
  | KeyError
  | NameError
  | TypeError
  | ValueError.

Record state : Type := {
  files : gmap string DataFrame;
  env : gmap string loc;
  heap : gmap loc object;
  stdout : list printed
}.

Inductive outcome (A : Type) : Type :=
  | Return (a : A)
  | Raise (e : exn).
Arguments Return {A} a.
Arguments Raise {A} e.

(** A statement maps a state to an outcome and the state it leaves; what was
    done before an exception stays done. *)
Definition M (A : Type) : Type := state → outcome A * state.

#[export] Instance M_ret : MRet M := λ A a s, (Return a, s).

#[export] Instance M_bind : MBind M := λ A B k m s,
  match m s with
  | (Return a, s') => k a s'
  | (Raise e, s') => (Raise e, s')
  end.

Definition raise {A : Type} (e : exn) : M A := λ s, (Raise e, s).

(** A partial library call: [None] raises [e]. *)
Definition try_some {A : Type} (e : exn) (o : option A) : M A :=
  match o with Some a => mret a | None => raise e end.

(** A new object, at a location no object lives at. *)
Definition alloc (o : object) : M loc := λ s,
  let l := fresh (dom (heap s)) in
  (Return l, {| files := files s; env := env s;
                heap := <[l := o]> (heap s); stdout := stdout s |}).

(** [x = ...]: bind the name [x] to the object at [l]. *)
Definition assign (x : string) (l : loc) : M unit := λ s,
  (Return tt, {| files := files s; env := <[x := l]> (env s);
                 heap := heap s; stdout := stdout s |}).

(** Reading a name. *)
Definition name (x : string) : M loc := λ s,
  match env s !! x with
  | Some l => (Return l, s)
  | None => (Raise NameError, s)
  end.

Definition get_frame (l : loc) : M DataFrame := λ s,
  match heap s !! l with
  | Some (OFrame f) => (Return f, s)
  | _ => (Raise TypeError, s)
  end.

Definition get_array (l : loc) : M (list (list float64)) := λ s,
  match heap s !! l with
  | Some (OArray m) => (Return m, s)
  | _ => (Raise TypeError, s)
  end.

(** Overwrite the object at [l] (pandas' [_update_inplace]). *)
Definition update (l : loc) (o : object) : M unit := λ s,
  (Return tt, {| files := files s; env := env s;
                 heap := <[l := o]> (heap s); stdout := stdout s |}).

Definition print (p : printed) : M unit := λ s,
  (Return tt, {| files := files s; env := env s;
                 heap := heap s; stdout := stdout s ++ [p] |}).

(** [pd.read_sas(path)]: a new frame with the content of the file. *)
Definition read_sas (path : string) : M loc := λ s,
  match files s !! path with
  | Some f => alloc (OFrame f) s
  | None => (Raise FileNotFoundError, s)
  end.

(** ** Cell 3: loading and filtering the blood-pressure table *)

(** [bpx_vars] is bound once to a list literal and never updated, it is
    modelled as a constant. *)
Definition bpx_vars : list string :=
  ["BPXSY1"; "BPXSY2"; "BPXSY3"; "BPXDI1"; "BPXDI2"; "BPXDI3"]%string.

(** [bpx_vars + ["SEQN", "BPXPLS"]] *)
Definition selected_columns : list string :=
  bpx_vars ++ ["SEQN"; "BPXPLS"]%string.

(** [[
df = pd.read_sas("BPX_I.XPT")
bpx_vars = [...]
da = df.loc[:, bpx_vars + ["SEQN", "BPXPLS"]].dropna()
print(da.shape)
print(da.dtypes)
]] *)
Definition cell3 : M unit :=
  l ← read_sas "BPX_I.XPT";
  _ ← assign "df" l;
  df ← name "df" ≫= get_frame;
  sel ← try_some KeyError (loc_cols df selected_columns);
  l ← alloc (OFrame (dropna sel));
  _ ← assign "da" l;
  da ← name "da" ≫= get_frame;
  _ ← print (PShape (length (rows da)) (length (columns da)));
  da ← name "da" ≫= get_frame;
  print (PDtypes ((λ c, (c, "float64"%string)) <$> columns da)).

(** ** Cell 15: standardization and scores *)

Section MatrixProduct.
Context {A : Type} `{Num A}.

(** Number of columns of a two-dimensional array given by its rows. *)
Definition ncols (m : list (list A)) : nat :=
  match m with [] => 0 | r :: _ => length r end.

(** Column [j] of an array. *)
Definition mat_column (m : list (list A)) (j : nat) : list A :=
  omap (λ r, r !! j) m.

(** [m.T] *)
Definition transpose (m : list (list A)) : list (list A) :=
  mat_column m <$> seq 0 (ncols m).

(** The product of two arrays: entry [(i, j)] is the inner product of row [i]
    of [a] and column [j] of [b]. *)
Definition matmul (a b : list (list A)) : list (list A) :=
  (λ row, vdot row <$> transpose b) <$> a.

(** [np.dot(a, b)] for an array [a] with [k] columns: numpy raises
    [ValueError] ([None]) unless [b] has [k] rows. *)
Definition np_dot (k : nat) (a b : list (list A)) : option (list (list A)) :=
  if decide (k = length b) then Some (matmul a b) else None.

End MatrixProduct.

Section Standardization.

(** [Series.mean] and [Series.std] of one column.  pandas does not fix the
    order in which it adds the terms, so they are parameters: what follows
    holds for every implementation of them. *)
Variable col_mean col_std : list float64 → float64.

(** [[
ds = da.loc[:, bpx_vars]
ds -= ds.mean(0)
ds /= da.std(0)
]] *)
Definition standardize : M unit :=
  da ← name "da" ≫= get_frame;
  sel ← try_some KeyError (loc_cols da bpx_vars);
  l ← alloc (OFrame sel);
  _ ← assign "ds" l;
  l ← name "ds";
  ds ← get_frame l;
  ds' ← name "ds" ≫= get_frame;
  _ ← update l (OFrame (inplace_method B64.sub ds (reduce0 col_mean ds')));
  _ ← assign "ds" l;
  l ← name "ds";
  ds ← get_frame l;
  da ← name "da" ≫= get_frame;
  _ ← update l (OFrame (inplace_method B64.div ds (reduce0 col_std da)));
  assign "ds" l.

(** [[
scores = np.dot(ds, eig)
]] *)
Definition project : M unit :=
  ds ← name "ds" ≫= get_frame;
  eig ← name "eig" ≫= get_array;
  sc ← try_some ValueError (np_dot (length (columns ds)) (frame_values ds) eig);
  l ← alloc (OArray sc);
  assign "scores" l.

Definition cell15 : M unit := _ ← standardize; project.

(** The frame the standardization leaves in [ds], as a function of the frame
    [da] is bound to. *)
Definition standardized (da : DataFrame) : option DataFrame :=
  sel ← loc_cols da bpx_vars;
  Some (inplace_method B64.div
          (inplace_method B64.sub sel (reduce0 col_mean sel))
          (reduce0 col_std da)).

End Standardization.

(** ** Cell 5 and cell 39: the correlation matrix *)

Section Corrcoef.
Context {A : Type} `{Num A}.

(** [x - x.mean()] for one variable. *)
Definition centered (x : list A) : list A := (λ v, num_sub v (np_mean x)) <$> x.

(** The covariance of two variables observed [n] times: the inner product of
    the centered variables, times [1 / fact], where [fact] is [n - 1], or
    zero when that is not positive ([ddof] is 1 by default). *)
Definition cov_entry (n : nat) (x y : list A) : A :=
  num_mul (vdot (centered x) (centered y))
          (num_div (num_of_Z 1) (num_of_Z (Z.of_nat (n - 1)))).

(** [np.cov(X)] for an array whose rows are the variables:
    [[
avg = average(X, axis=1)
fact = X.shape[1] - ddof
X -= avg[:, None]
c = dot(X, X.T)
c *= np.true_divide(1, fact)
    ]] *)
Definition cov (X : list (list A)) : list (list A) :=
  let Xc := centered <$> X in
  let c := (λ xi, vdot xi <$> Xc) <$> Xc in
  let r := num_div (num_of_Z 1) (num_of_Z (Z.of_nat (ncols X - 1))) in
  (λ row, (λ v, num_mul v r) <$> row) <$> c.

(** [diag(c)] *)
Definition diag (c : list (list A)) : list A :=
  imap (λ i row, default (num_of_Z 0) (row !! i)) c.

(** [np.corrcoef(X)]:
    [[
c = cov(X)
try:
    d = diag(c)
except ValueError:        # scalar covariance
    return c / c
stddev = sqrt(d.real)
c /= stddev[:, None]
c /= stddev[None, :]
np.clip(c.real, -1, 1, out=c.real)
return c
    ]]
    The covariance of a single variable is squeezed to a scalar and the
    result is then the scalar [c / c]; it is kept as a matrix with one
    entry. *)
Definition corrcoef (X : list (list A)) : list (list A) :=
  let c := cov X in
  match c with
  | [[v]] => [[num_div v v]]
  | _ =>
    let stddev := num_sqrt <$> diag c in
    let c1 := zip_with (λ row s, (λ v, num_div v s) <$> row) c stddev in
    let c2 := (λ row, zip_with num_div row stddev) <$> c1 in
    (λ row, clip1 <$> row) <$> c2
  end.

(** The correlation of two variables observed [n] times, as [corrcoef] leaves
    it in the matrix: the covariance divided by the standard deviation of
    the first and then by that of the second, clipped to [[-1, 1]]. *)
Definition corr_entry (n : nat) (x y : list A) : A :=
  clip1 (num_div (num_div (cov_entry n x y) (num_sqrt (cov_entry n x x)))
                 (num_sqrt (cov_entry n y y))).

(** Entry [(i, j)] of an array. *)
Definition entry (m : list (list A)) (i j : nat) : option A :=
  row ← m !! i; row !! j.


End Corrcoef.

(** [f.loc[:, vars].T] as an array: one row per selected column. *)
Definition frame_T (f : DataFrame) : list (list float64) :=
  column f <$> seq 0 (length (columns f)).

(** [np.corrcoef(f.loc[:, vars].T)] *)
Definition frame_corrcoef (f : DataFrame) (vars : list string) :
    option (list (list float64)) :=
  g ← loc_cols f vars; Some (corrcoef (frame_T g)).

(** ** Cell 7: sorting the eigen-decomposition *)

(** [np.argsort(v)]: the indices of [v] in ascending order of their values.
    The model sorts by insertion: each index in turn is put into the sorted
    prefix, after the indices whose value is not greater than its own.
    numpy's default sort does not fix the order of the indices of equal
    values; the model gives one such order, and nothing below depends on
    which.  The sort works on the indices paired with their values. *)
Fixpoint insert_key (p : nat * float64) (l : list (nat * float64)) :
    list (nat * float64) :=
  match l with
  | [] => [p]
  | q :: l' =>
    if B64.sort_lt (snd p) (snd q) then p :: q :: l' else q :: insert_key p l'
  end.

Definition isort (l : list (nat * float64)) : list (nat * float64) :=
  foldl (λ acc p, insert_key p acc) [] l.

Definition argsort (v : list float64) : list nat :=
  fst <$> isort (zip (seq 0 (length v)) v).

(** Two neighbours of an array in ascending order, in the order numpy sorts
    by: the second is not less than the first. *)
Definition asc (p q : nat * float64) : Prop :=
  B64.sort_lt (snd q) (snd p) = false.

(** [a[ii]] for a list of indices [ii]: an index out of range raises
    [IndexError] ([None]). *)
Definition take_idx {A : Type} (a : list A) (ii : list nat) : option (list A) :=
  mapM (λ i, a !! i) ii.

(** [[
ii = np.argsort(eiv)[::-1]
eiv = eiv[ii]
eig = eig[:, ii]
]] *)
Definition sort_eig (eiv : list float64) (eig : list (list float64)) :
    option (list float64 * list (list float64)) :=
  let ii := reverse (argsort eiv) in
  eiv' ← take_idx eiv ii;
  eig' ← mapM (λ row, take_idx row ii) eig;
  Some (eiv', eig').

(** ** Reference reductions and a small table *)

(** [Series.mean] as pandas computes it without an accelerator: the missing
    values are skipped, the sum is divided by the count. *)
Definition nanmean (xs : list float64) : float64 :=
  np_mean (filter (λ x, B64.is_nan x = false) xs).

(** [Series.std] with [ddof=1]: the square root of the sum of the squared
    deviations from the mean, divided by the count minus one; NaN when the
    count is at most one. *)
Definition nanstd (xs : list float64) : float64 :=
  let ys := filter (λ x, B64.is_nan x = false) xs in
  if decide (length ys ≤ 1) then B64.nan
  else
    let avg := np_mean ys in
    let sqr := (λ x, B64.mul (B64.sub avg x) (B64.sub avg x)) <$> ys in
    B64.sqrt (B64.div (np_sum sqr) (B64.of_Z (Z.of_nat (length ys - 1)))).

(** A row of integer-valued cells. *)
Definition int_row (label : Z) (zs : list Z) : Row :=
  {| row_label := label; cells := B64.of_Z <$> zs |}.

(** A table as [read_sas] could return it: four subjects, the second without
    a first systolic reading, the first without a value in a column the
    notebook does not select. *)
Definition example_df : DataFrame :=
  {| columns := ["SEQN"; "BPXPLS"; "BPXML1"; "BPXSY1"; "BPXDI1"; "BPXSY2";
                 "BPXDI2"; "BPXSY3"; "BPXDI3"]%string;
     rows :=
       [ {| row_label := 0;
            cells := (B64.of_Z <$> [83732; 76]%Z) ++ [B64.nan] ++
                     (B64.of_Z <$> [128; 70; 124; 64; 116; 62]%Z) |};
         {| row_label := 1;
            cells := (B64.of_Z <$> [83733; 72; 170]%Z) ++ [B64.nan] ++
                     (B64.of_Z <$> [88; 140; 86; 134; 82]%Z) |};
         int_row 2 [83734; 66; 160; 138; 46; 132; 44; 136; 46]%Z;
         int_row 3 [83735; 94; 150; 132; 72; 134; 68; 136; 70]%Z ] |}.

(** The selected columns of the table, before the rows are filtered. *)
Definition example_selection : DataFrame :=
  {| columns := selected_columns;
     rows := select_row [3; 5; 7; 4; 6; 8; 0; 1] <$> rows example_df |}.

(** The filtered table of three subjects, columns in the order of cell 3. *)
Definition example_da : DataFrame :=
  {| columns := selected_columns;
     rows := [ int_row 0 [128; 124; 116; 70; 64; 62; 83732; 76]%Z;
               int_row 2 [138; 132; 136; 46; 44; 46; 83734; 66]%Z;
               int_row 3 [132; 134; 136; 72; 68; 70; 83735; 94]%Z ] |}.

(** A filtered table whose first systolic reading is the same for every
    subject. *)
Definition constant_da : DataFrame :=
  {| columns := selected_columns;
     rows := [ int_row 0 [120; 124; 116; 70; 64; 62; 83732; 76]%Z;
               int_row 2 [120; 132; 136; 46; 44; 46; 83734; 66]%Z;
               int_row 3 [120; 134; 136; 72; 68; 70; 83735; 94]%Z ] |}.

(** The six by six identity array. *)
Definition eye6 : list (list float64) :=
  (λ i, (λ j, B64.of_Z (if decide (i = j) then 1 else 0)) <$> seq 0 6) <$> seq 0 6.

(** Three eigenvalues out of order, and an array with one column for each. *)
Definition example_eiv : list float64 := B64.of_Z <$> [1; 3; 2]%Z.

Definition example_eig : list (list float64) :=
  [ B64.of_Z <$> [10; 30; 20]%Z;
    B64.of_Z <$> [11; 31; 21]%Z;
    B64.of_Z <$> [12; 32; 22]%Z ].

(** The state before cell 3: the file is there, nothing is bound. *)
Definition state_before_cell3 : state :=
  {| files := {[ "BPX_I.XPT"%string := example_df ]};
     env := ∅; heap := ∅; stdout := [] |}.

(** A state before cell 15: [da] and [eig] are bound. *)
Definition state_before_cell15 (da : DataFrame) : state :=
  {| files := ∅;
     env := {[ "da"%string := 1%positive; "eig"%string := 2%positive ]};
     heap := {[ 1%positive := OFrame da; 2%positive := OArray eye6 ]};
     stdout := [] |}.

(** ** More example data *)

(** [bmx_vars] of cell 37 and cell 49. *)
Definition bmx_vars : list string :=
  ["BMXWT"; "BMXHT"; "BMXBMI"; "BMXLEG"; "BMXARML"; "BMXARMC"; "BMXWAIST"]%string.

(** A body-measures table as [read_sas] could return it: the subjects 83732,
    83734 and 83736, the last one without a waist measurement. *)
Definition example_bmx : DataFrame :=
  {| columns := ("SEQN" :: bmx_vars)%string;
     rows :=
       [ int_row 0 [83732; 95; 184; 28; 43; 43; 36; 101]%Z;
         int_row 1 [83734; 88; 171; 30; 38; 40; 33; 108]%Z;
         {| row_label := 2;
            cells := (B64.of_Z <$> [83736; 56; 165; 20; 37; 36; 27]%Z)
                     ++ [B64.nan] |} ] |}.

(** A state in which [da] and [eig] are bound to a given frame and array. *)
Definition state_da_eig (da : DataFrame) (eig : list (list float64)) : state :=
  {| files := ∅;
     env := {[ "da"%string := 1%positive; "eig"%string := 2%positive ]};
     heap := {[ 1%positive := OFrame da; 2%positive := OArray eig ]};
     stdout := [] |}.

(** ** Cell 25 and cell 27: four groups of observations *)

(** [np.abs] *)
Definition b64_abs (x : float64) : float64 := SFabs x.

(** The literal [-1.5]. *)
Definition minus_1_5 : float64 := B64.div (B64.of_Z (-3)) (B64.of_Z 2).

(** [a[:, j]]: column [j] of an array; a row without entry [j] raises
    [IndexError] ([None]). *)
Definition col_of (a : list (list float64)) (j : nat) : option (list float64) :=
  mapM (λ row, row !! j) a.

(** The four boolean arrays of cell 25. *)
Record groups : Type := {
  i0 : list bool;
  i1 : list bool;
  i2 : list bool;
  i3 : list bool
}.

(** [[
i0 = (scores[:, 0] < -4) & (np.abs(scores[:, 1]) < 1)
i1 = (scores[:, 0] > 4) & (np.abs(scores[:, 1]) < 1)
i2 = (scores[:, 1] > 3) & (np.abs(scores[:, 0]) < 1)
i3 = (scores[:, 1] < -1.5) & (np.abs(scores[:, 0]) < 1)
]] *)
Definition cell25_masks (scores : list (list float64)) : option groups :=
  s0 ← col_of scores 0;
  s1 ← col_of scores 1;
  Some {|
    i0 := zip_with andb ((λ x, B64.ltb x (B64.of_Z (-4))) <$> s0)
                        ((λ x, B64.ltb (b64_abs x) (B64.of_Z 1)) <$> s1);
    i1 := zip_with andb ((λ x, B64.ltb (B64.of_Z 4) x) <$> s0)
                        ((λ x, B64.ltb (b64_abs x) (B64.of_Z 1)) <$> s1);
    i2 := zip_with andb ((λ x, B64.ltb (B64.of_Z 3) x) <$> s1)
                        ((λ x, B64.ltb (b64_abs x) (B64.of_Z 1)) <$> s0);
    i3 := zip_with andb ((λ x, B64.ltb x minus_1_5) <$> s1)
                        ((λ x, B64.ltb (b64_abs x) (B64.of_Z 1)) <$> s0)
  |}.

(** [np.flatnonzero(mask)]: the positions of the [True] entries, in
    ascending order; [flatnonzero_from k] counts the positions from [k]. *)
Fixpoint flatnonzero_from (k : nat) (mask : list bool) : list nat :=
  match mask with
  | [] => []
  | b :: rest =>
    if b then k :: flatnonzero_from (S k) rest
    else flatnonzero_from (S k) rest
  end.

Definition flatnonzero (mask : list bool) : list nat := flatnonzero_from 0 mask.

(** [f.iloc[i, :]]: the cells of row [i]; a position past the last row
    raises [IndexError] ([None]). *)
Definition iloc_row (f : DataFrame) (i : nat) : option (list float64) :=
  cells <$> rows f !! i.

Inductive colour : Type := Purple | Orange | Lime | Yellow.

(** [[
for i in np.flatnonzero(mask):
    plt.plot(ds.iloc[i, :], color=c)
]]
    The figure is represented by the lines drawn on it, each with its
    colour. *)
Definition plot_group (ds : DataFrame) (c : colour) (mask : list bool) :
    option (list (colour * list float64)) :=
  mapM (λ i, (λ r, (c, r)) <$> iloc_row ds i) (flatnonzero mask).

(** The four loops of cell 27. *)
Definition cell27 (ds : DataFrame) (g : groups) :
    option (list (colour * list float64)) :=
  a ← plot_group ds Purple (i0 g);
  b ← plot_group ds Orange (i1 g);
  c ← plot_group ds Lime (i2 g);
  d ← plot_group ds Yellow (i3 g);
  Some (a ++ b ++ c ++ d).

(** The boolean array a colour stands for. *)
Definition mask_of (c : colour) (g : groups) : list bool :=
  match c with
  | Purple => i0 g
  | Orange => i1 g
  | Lime => i2 g
  | Yellow => i3 g
  end.

(** ** The first statement of cell 37 *)

(** [[
da = pd.read_sas("BMX_I.XPT")
]] *)
Definition cell37_load : M unit :=
  l ← read_sas "BMX_I.XPT";
  assign "da" l.

(** A standardized table of five observations, one for each group of
    cell 25 and one for none, and the groups of its scores on the identity
    array. *)
Definition example_ds : DataFrame :=
  {| columns := bpx_vars;
     rows := [ int_row 0 [-5; 0; 0; 0; 0; 0]%Z;
               int_row 2 [0; 4; 0; 0; 0; 0]%Z;
               int_row 3 [5; 0; 0; 0; 0; 0]%Z;
               int_row 5 [0; -2; 0; 0; 0; 0]%Z;
               int_row 6 [0; 0; 0; 0; 0; 0]%Z ] |}.

Definition example_groups : groups :=
  {| i0 := [true; false; false; false; false];
     i1 := [false; false; true; false; false];
     i2 := [false; true; false; false; false];
     i3 := [false; false; false; true; false] |}.

(** A state before cell 37: the body-measures file is there, [da] and [eig]
    are bound as cell 3 and cell 7 leave them. *)
Definition state_before_cell37 : state :=
  {| files := {[ "BMX_I.XPT"%string := example_bmx ]};
     env := {[ "da"%string := 1%positive; "eig"%string := 2%positive ]};
     heap := {[ 1%positive := OFrame example_da; 2%positive := OArray eye6 ]};
     stdout := [] |}.

(** ** Cell 49: the two tables merged on the subject *)

(** Two keys are the same for [pd.merge] when they are equal as numbers, or
    when both are missing. *)
Definition key_eq (x y : float64) : bool :=
  B64.eqb x y || (B64.is_nan x && B64.is_nan y).

(** The positions of the columns that are not labelled [key], and their
    labels. *)
Definition other_positions (cs : list string) (key : string) : list nat :=
  filter (λ p, cs !! p ≠ Some key) (seq 0 (length cs)).

Definition other_labels (cs : list string) (key : string) : list string :=
  filter (λ c, c ≠ key) cs.

(** A label that the other side has as well gets the suffix of its side. *)
Definition suffixed (suffix : string) (others : list string) (c : string) : string :=
  if decide (c ∈ others) then c +:+ suffix else c.

(** The pairs of an inner join: each row of the left table, in the order
    of the left table, with the rows of the right table that have its key,
    in the order of the right table. *)
Definition join_pairs (left right : list Row) (pl pr : nat) : list (Row * Row) :=
  l ← left;
  r ← filter (λ r, key_eq (cell_at l pl) (cell_at r pr) = true) right;
  [(l, r)].

(** Row [i] of the merged table: the index is a new [RangeIndex]. *)
Definition merged_row (lpos rpos : list nat) (i : nat) (lr : Row * Row) : Row :=
  {| row_label := Z.of_nat i;
     cells := (cell_at lr.1 <$> lpos) ++ (cell_at lr.2 <$> rpos) |}.

(** [pd.merge(left, right, left_on=key, right_on=key)], an inner join with
    the suffixes [_x] and [_y].  A table without a column [key] raises
    [KeyError] ([None]).  The key is named alike on both sides, so the merged
    table has one key column, where the left table has it, followed by the
    columns of the right table other than the key.  (The labels of a frame
    are distinct wherever the notebook merges.) *)
Definition merge (left right : DataFrame) (key : string) : option DataFrame :=
  pl ← col_pos (columns left) key;
  pr ← col_pos (columns right) key;
  let rlab := other_labels (columns right) key in
  Some {| columns := (suffixed "_x" rlab <$> columns left)
                     ++ (suffixed "_y" (columns left) <$> rlab);
          rows := imap (merged_row (seq 0 (length (columns left)))
                                   (other_positions (columns right) key))
                       (join_pairs (rows left) (rows right) pl pr) |}.

(** No two keys of a list are the same for [pd.merge]: what
    [Series.is_unique] tells of a key column. *)
Fixpoint distinct_keys (ks : list float64) : bool :=
  match ks with
  | [] => true
  | k :: ks' => forallb (λ k', negb (key_eq k k')) ks' && distinct_keys ks'
  end.

(** [[
df = pd.read_sas("BPX_I.XPT")
bpx = df.loc[:, bpx_vars + ["SEQN"]].dropna()
df = pd.read_sas("BMX_I.XPT")
bmx = df.loc[:, bmx_vars + ["SEQN"]].dropna()
bpmx = pd.merge(bpx, bmx, left_on="SEQN", right_on="SEQN")
bpx = bpmx.loc[:, bpx_vars]
bmx = bpmx.loc[:, bmx_vars]
]] *)
Definition cell49 : M unit :=
  l ← read_sas "BPX_I.XPT";
  _ ← assign "df" l;
  df ← name "df" ≫= get_frame;
  sel ← try_some KeyError (loc_cols df (bpx_vars ++ ["SEQN"%string]));
  l ← alloc (OFrame (dropna sel));
  _ ← assign "bpx" l;
  l ← read_sas "BMX_I.XPT";
  _ ← assign "df" l;
  df ← name "df" ≫= get_frame;
  sel ← try_some KeyError (loc_cols df (bmx_vars ++ ["SEQN"%string]));
  l ← alloc (OFrame (dropna sel));
  _ ← assign "bmx" l;
  bpx ← name "bpx" ≫= get_frame;
  bmx ← name "bmx" ≫= get_frame;
  bpmx ← try_some KeyError (merge bpx bmx "SEQN");
  l ← alloc (OFrame bpmx);
  _ ← assign "bpmx" l;
  bpmx ← name "bpmx" ≫= get_frame;
  sel ← try_some KeyError (loc_cols bpmx bpx_vars);
  l ← alloc (OFrame sel);
  _ ← assign "bpx" l;
  bpmx ← name "bpmx" ≫= get_frame;
  sel ← try_some KeyError (loc_cols bpmx bmx_vars);
  l ← alloc (OFrame sel);
  assign "bmx" l.

(** The frames cell 49 leaves in [bpx] and [bmx], as a function of the
    tables in the two files. *)
Definition cell49_tables (f1 f2 : DataFrame) : option (DataFrame * DataFrame) :=
  a ← loc_cols f1 (bpx_vars ++ ["SEQN"%string]);
  b ← loc_cols f2 (bmx_vars ++ ["SEQN"%string]);
  bpmx ← merge (dropna a) (dropna b) "SEQN";
  x ← loc_cols bpmx bpx_vars;
  y ← loc_cols bpmx bmx_vars;
  Some (x, y).

(** The name [x] is bound to a frame object whose value is [f]. *)
Definition bound (s : state) (x : string) (f : DataFrame) : Prop :=
  ∃ l, env s !! x = Some l ∧ heap s !! l = Some (OFrame f).

(** [r[c]]: the cell of a row of the frame [f] under the label [c]. *)
Definition cell_of (f : DataFrame) (r : Row) (c : string) : float64 :=
  match col_pos (columns f) c with
  | Some p => cell_at r p
  | None => B64.nan
  end.

(** The state before cell 49 on the two small tables. *)
Definition state_before_cell49 : state :=
  {| files := {[ "BPX_I.XPT"%string := example_df;
                 "BMX_I.XPT"%string := example_bmx ]};
     env := ∅; heap := ∅; stdout := [] |}.

(** A state before cell 49 in which the body-measures file is not there. *)
Definition state_without_bmx : state :=
  {| files := {[ "BPX_I.XPT"%string := example_df ]};
     env := ∅; heap := ∅; stdout := [] |}.


(** ** Frame conditions on statements *)

(** [s'] keeps the binding of the name [x] and the value of every object of
    [s]. *)
Definition keeps (x : string) (s s' : state) : Prop :=
  env s' !! x = env s !! x ∧
  ∀ l obj, heap s !! l = Some obj → heap s' !! l = Some obj.

Definition keeping {A : Type} (x : string) (m : M A) : Prop :=
  ∀ s o s', m s = (o, s') → keeps x s s'.

(** * Properties *)

(** ** The missing-value filter *)

Lemma dropna_columns (f : DataFrame) : columns (dropna f) = columns f.
Proof. reflexivity. Qed.

Lemma dropna_sublist (f : DataFrame) : rows (dropna f) `sublist_of` rows f.
Proof. apply sublist_filter. Qed.

Lemma dropna_elem_of (f : DataFrame) (r : Row) :
  r ∈ rows (dropna f) ↔ r ∈ rows f ∧ complete r.
Proof. unfold dropna; simpl. rewrite list_elem_of_filter. tauto. Qed.

Lemma complete_select_row (ps : list nat) (r : Row) :
  complete (select_row ps r) ↔ ∀ p, p ∈ ps → B64.is_nan (cell_at r p) = false.
Proof.
  unfold complete, select_row; simpl.
  rewrite Forall_fmap, Forall_forall. reflexivity.
Qed.

Lemma col_pos_is_Some (cs : list string) (c : string) :
  c ∈ cs → is_Some (col_pos cs c).
Proof.
  intros Hc. unfold col_pos.
  destruct (list_find_elem_of (λ x, x = c) cs c Hc eq_refl) as [[i y] Hf].
  rewrite Hf. eexists; reflexivity.
Qed.

Lemma loc_cols_is_Some (f : DataFrame) (labels : list string) :
  labels ⊆ columns f → is_Some (mapM (col_pos (columns f)) labels).
Proof.
  intros Hsub. apply mapM_is_Some, Forall_forall.
  intros c Hc. apply col_pos_is_Some, Hsub, Hc.
Qed.

(** *** Running statements *)

Lemma run_bind {A B : Type} (m : M A) (k : A → M B) (s s' : state) (a : A) :
  m s = (Return a, s') → (m ≫= k) s = k a s'.
Proof. intros Hm. unfold mbind, M_bind. rewrite Hm. reflexivity. Qed.

Lemma run_bind_raise {A B : Type} (m : M A) (k : A → M B) (s s' : state) (e : exn) :
  m s = (Raise e, s') → (m ≫= k) s = (Raise e, s').
Proof. intros Hm. unfold mbind, M_bind. rewrite Hm. reflexivity. Qed.

Lemma run_name (x : string) (l : loc) (s : state) :
  env s !! x = Some l → name x s = (Return l, s).
Proof. intros Hx. unfold name. rewrite Hx. reflexivity. Qed.

Lemma run_get_frame (l : loc) (f : DataFrame) (s : state) :
  heap s !! l = Some (OFrame f) → get_frame l s = (Return f, s).
Proof. intros Hl. unfold get_frame. rewrite Hl. reflexivity. Qed.

Lemma run_get_array (l : loc) (m : list (list float64)) (s : state) :
  heap s !! l = Some (OArray m) → get_array l s = (Return m, s).
Proof. intros Hl. unfold get_array. rewrite Hl. reflexivity. Qed.

Lemma run_name_frame (x : string) (l : loc) (f : DataFrame) (s : state) :
  env s !! x = Some l → heap s !! l = Some (OFrame f) →
  (name x ≫= get_frame) s = (Return f, s).
Proof.
  intros Hx Hl. rewrite (run_bind _ _ s s l) by (apply run_name, Hx).
  apply run_get_frame, Hl.
Qed.

Lemma fresh_loc_None (h : gmap loc object) : h !! fresh (dom h) = None.
Proof. apply not_elem_of_dom, is_fresh. Qed.

(** C7. Cell 3 on a file whose table has the selected columns: the cell
    returns without an exception and binds [da] to a frame with the selected
    columns whose rows are rows of the loaded table, in their order, cut down
    to the selected columns and otherwise unchanged; a row of the loaded
    table is among them exactly when none of its cells in the selected
    columns is missing; and the cell prints the shape and the dtypes of [da]
    and nothing else. *)
Theorem cell3_keeps_complete_rows (s : state) (df : DataFrame) :
  files s !! "BPX_I.XPT"%string = Some df →
  selected_columns ⊆ columns df →
  ∃ (ps : list nat) (l : loc) (da : DataFrame) (s' : state),
    mapM (col_pos (columns df)) selected_columns = Some ps ∧
    cell3 s = (Return tt, s') ∧
    env s' !! "da"%string = Some l ∧
    heap s' !! l = Some (OFrame da) ∧
    columns da = selected_columns ∧
    rows da `sublist_of` (select_row ps <$> rows df) ∧
    (∀ r, r ∈ rows df →
       (select_row ps r ∈ rows da ↔
        ∀ p, p ∈ ps → B64.is_nan (cell_at r p) = false)) ∧
    stdout s' = stdout s ++
      [PShape (length (rows da)) 8;
       PDtypes ((λ c, (c, "float64"%string)) <$> selected_columns)].
Proof.
  intros Hfile Hcols.
  destruct (loc_cols_is_Some df selected_columns Hcols) as [ps Hps].
  set (sel := {| columns := selected_columns; rows := select_row ps <$> rows df |}).
  exists ps.
  unfold cell3.
  assert (Hloc : loc_cols df selected_columns = Some sel).
  { unfold loc_cols. rewrite Hps. reflexivity. }
  set (l1 := fresh (dom (heap s))).
  set (s1 := {| files := files s; env := env s; heap := <[l1 := OFrame df]> (heap s); stdout := stdout s |}).
  set (s2 := {| files := files s; env := <["df"%string := l1]> (env s); heap := heap s1; stdout := stdout s |}).
  set (l2 := fresh (dom (heap s2))).
  set (da := dropna sel).
  set (s3 := {| files := files s; env := env s2; heap := <[l2 := OFrame da]> (heap s2); stdout := stdout s |}).
  set (s4 := {| files := files s; env := <["da"%string := l2]> (env s2); heap := heap s3; stdout := stdout s |}).
  assert (Hda_env : env s4 !! "da"%string = Some l2) by apply lookup_insert_eq.
  assert (Hda_heap : heap s4 !! l2 = Some (OFrame da)) by apply lookup_insert_eq.
  eexists l2, da, _. split; [exact Hps|]. split.
  { rewrite (run_bind _ _ s s1 l1) by (unfold read_sas; rewrite Hfile; reflexivity).
    rewrite (run_bind _ _ s1 s2 tt) by reflexivity.
    rewrite (run_bind _ _ s2 s2 df) by (apply (run_name_frame _ l1); apply lookup_insert_eq).
    rewrite (run_bind _ _ s2 s2 sel) by (rewrite Hloc; reflexivity).
    rewrite (run_bind _ _ s2 s3 l2) by reflexivity.
    rewrite (run_bind _ _ s3 s4 tt) by reflexivity.
    rewrite (run_bind _ _ s4 s4 da) by (apply (run_name_frame _ l2); assumption).
    rewrite (run_bind _ _ s4 _ tt) by reflexivity.
    erewrite run_bind by (apply (run_name_frame _ l2); eassumption).
    reflexivity. }
  split; [exact Hda_env|]. split; [exact Hda_heap|].
  split; [reflexivity|].
  split; [apply dropna_sublist|].
  split.
  { intros r Hr. rewrite <- complete_select_row. unfold da. rewrite dropna_elem_of.
    split; [tauto|]. intros Hc. split; [|exact Hc].
    simpl. apply list_elem_of_fmap. exists r. split; [reflexivity|exact Hr]. }
  simpl. rewrite <- app_assoc. reflexivity.
Qed.

(** *** Statements that leave the existing objects alone *)

Lemma keeps_refl (x : string) (s : state) : keeps x s s.
Proof. split; [reflexivity|tauto]. Qed.

Lemma keeps_trans (x : string) (s1 s2 s3 : state) :
  keeps x s1 s2 → keeps x s2 s3 → keeps x s1 s3.
Proof.
  intros [He1 Hh1] [He2 Hh2]. split; [congruence|].
  intros l obj Hl. apply Hh2, Hh1, Hl.
Qed.

Lemma keeping_bind {A B : Type} (x : string) (m : M A) (k : A → M B) :
  keeping x m → (∀ a, keeping x (k a)) → keeping x (m ≫= k).
Proof.
  intros Hm Hk s o s'. unfold mbind, M_bind.
  destruct (m s) as [[a|e] s1] eqn:Hms; intros Hrun.
  - eapply keeps_trans; [eapply Hm, Hms|eapply Hk, Hrun].
  - injection Hrun as <- <-. eapply Hm, Hms.
Qed.

Lemma keeping_ret {A : Type} (x : string) (a : A) : keeping x (mret a).
Proof. intros s o s' [= <- <-]. apply keeps_refl. Qed.

Lemma keeping_raise {A : Type} (x : string) (e : exn) : keeping x (@raise A e).
Proof. intros s o s' [= <- <-]. apply keeps_refl. Qed.

Lemma keeping_try_some {A : Type} (x : string) (e : exn) (o : option A) :
  keeping x (try_some e o).
Proof. destruct o; [apply keeping_ret|apply keeping_raise]. Qed.

Lemma keeping_name (x y : string) : keeping x (name y).
Proof.
  intros s o s'. unfold name.
  destruct (env s !! y); intros [= <- <-]; apply keeps_refl.
Qed.

Lemma keeping_get_frame (x : string) (l : loc) : keeping x (get_frame l).
Proof.
  intros s o s'. unfold get_frame.
  destruct (heap s !! l) as [[f|m]|]; intros [= <- <-]; apply keeps_refl.
Qed.

Lemma keeping_get_array (x : string) (l : loc) : keeping x (get_array l).
Proof.
  intros s o s'. unfold get_array.
  destruct (heap s !! l) as [[f|m]|]; intros [= <- <-]; apply keeps_refl.
Qed.

Lemma keeping_alloc (x : string) (obj : object) : keeping x (alloc obj).
Proof.
  intros s o s'. unfold alloc. intros [= <- <-]. split; [reflexivity|].
  cbn [heap]. intros l obj' Hl. rewrite lookup_insert_ne; [exact Hl|].
  intros <-. rewrite fresh_loc_None in Hl. discriminate.
Qed.

Lemma keeping_assign (x y : string) (l : loc) : x ≠ y → keeping x (assign y l).
Proof.
  intros Hne s o s'. unfold assign. intros [= <- <-]. split; [|tauto].
  cbn [env]. apply lookup_insert_ne. congruence.
Qed.

Lemma keeping_print (x : string) (p : printed) : keeping x (print p).
Proof. intros s o s'. unfold print. intros [= <- <-]. split; [reflexivity|tauto]. Qed.

(** ** Label alignment *)

Lemma col_pos_Some (cs : list string) (c : string) (p : nat) :
  col_pos cs c = Some p → cs !! p = Some c.
Proof.
  unfold col_pos. intros Hp.
  destruct (list_find (λ x, x = c) cs) as [[i y]|] eqn:Hf; simplify_eq/=.
  apply list_find_Some in Hf as (Hi & -> & _). exact Hi.
Qed.

Lemma col_pos_lookup (cs extra : list string) (c : string) (j : nat) :
  NoDup cs → cs !! j = Some c → col_pos (cs ++ extra) c = Some j.
Proof.
  intros Hnd Hj. unfold col_pos.
  assert (Hf : list_find (λ x, x = c) (cs ++ extra) = Some (j, c)).
  { apply list_find_Some. split; [apply lookup_app_l_Some, Hj|].
    split; [reflexivity|]. intros i y Hi Hlt ->.
    assert (Hi' : cs !! i = Some c).
    { rewrite lookup_app_l in Hi; [exact Hi|].
      apply lookup_lt_Some in Hj. lia. }
    pose proof (NoDup_lookup _ _ _ _ Hnd Hi' Hj). lia. }
  rewrite Hf. reflexivity.
Qed.

Lemma col_pos_lookup_0 (cs : list string) (c : string) (j : nat) :
  NoDup cs → cs !! j = Some c → col_pos cs c = Some j.
Proof.
  intros Hnd Hj. rewrite <- (app_nil_r cs). apply col_pos_lookup; assumption.
Qed.

Lemma series_get_reduce0 (red : list float64 → float64) (f : DataFrame)
    (c : string) (p : nat) :
  col_pos (columns f) c = Some p →
  series_get (reduce0 red f) c = Some (red (column f p)).
Proof.
  intros Hp. unfold series_get, reduce0; simpl. rewrite Hp; simpl.
  apply col_pos_Some, lookup_lt_Some in Hp.
  rewrite list_lookup_fmap, lookup_seq_lt by exact Hp. reflexivity.
Qed.

Lemma inplace_method_rows (op : float64 → float64 → float64)
    (f : DataFrame) (s : Series) :
  NoDup (columns f) →
  Forall (λ r, length (cells r) = length (columns f)) (rows f) →
  rows (inplace_method op f s) =
  (λ r, {| row_label := row_label r;
           cells := zip_with (aligned op s) (columns f) (cells r) |}) <$> rows f.
Proof.
  intros Hnd Hwf. unfold inplace_method, reindex_like, frame_op_series; simpl.
  rewrite <- list_fmap_compose.
  apply Forall_fmap_ext_1.
  eapply Forall_impl; [exact Hwf|]. intros r Hr; simpl. f_equal.
  apply list_eq; intros j. rewrite list_lookup_fmap, lookup_zip_with.
  destruct (columns f !! j) as [c|] eqn:Hj; simpl; [|reflexivity].
  rewrite (col_pos_lookup _ _ _ j Hnd Hj).
  assert (Hlt : j < length (cells r)).
  { rewrite Hr. eapply lookup_lt_Some, Hj. }
  destruct (lookup_lt_is_Some_2 _ _ Hlt) as [x Hx]. rewrite Hx; simpl.
  unfold cell_at; simpl.
  rewrite lookup_app_l.
  - rewrite lookup_zip_with, Hj, Hx. reflexivity.
  - rewrite length_zip_with. apply lookup_lt_Some in Hj. lia.
Qed.

(** ** The standardized copy *)

Lemma NoDup_bpx_vars : NoDup bpx_vars.
Proof. apply (bool_decide_unpack _). vm_compute. exact I. Qed.

Lemma loc_cols_inv (f g : DataFrame) (labels : list string) :
  loc_cols f labels = Some g →
  ∃ ps, Forall2 (λ c p, col_pos (columns f) c = Some p) labels ps ∧
        columns g = labels ∧ rows g = select_row ps <$> rows f.
Proof.
  unfold loc_cols. intros Hg.
  destruct (mapM (col_pos (columns f)) labels) as [ps|] eqn:Hps; simplify_eq/=.
  exists ps. split; [apply mapM_Some, Hps|]. split; reflexivity.
Qed.

Lemma column_select_row (f : DataFrame) (ps : list nat) (j p : nat) :
  ps !! j = Some p →
  (λ r, cell_at r j) <$> (select_row ps <$> rows f) = column f p.
Proof.
  intros Hj. unfold column. rewrite <- list_fmap_compose.
  apply list_fmap_ext. intros i r _; simpl.
  unfold cell_at at 1; simpl. rewrite list_lookup_fmap, Hj. reflexivity.
Qed.

Section StandardizationFacts.

Variable col_mean col_std : list float64 → float64.

(** Every cell of the standardized copy, in terms of the frame it was copied
    from: for the label [c] at position [j] of [bpx_vars] and position [p] of
    the columns of [da], the cell is the cell of [da] minus the mean of
    column [p], divided by the standard deviation of column [p]. *)
Lemma standardized_rows (da ds : DataFrame) :
  standardized col_mean col_std da = Some ds →
  columns ds = bpx_vars ∧
  length (rows ds) = length (rows da) ∧
  ∀ i r, rows da !! i = Some r →
    ∃ r', rows ds !! i = Some r' ∧ row_label r' = row_label r ∧
          length (cells r') = length bpx_vars ∧
          ∀ j c p, bpx_vars !! j = Some c → col_pos (columns da) c = Some p →
            cells r' !! j =
            Some (B64.div (B64.sub (cell_at r p) (col_mean (column da p)))
                          (col_std (column da p))).
Proof.
  unfold standardized. intros Hds.
  destruct (loc_cols da bpx_vars) as [sel|] eqn:Hsel; [|discriminate].
  apply loc_cols_inv in Hsel as (ps & Hps & Hcols & Hrows).
  cbn [mbind option_bind] in Hds. injection Hds as <-.
  set (f1 := inplace_method B64.sub sel (reduce0 col_mean sel)).
  assert (Hlen : length ps = length bpx_vars).
  { symmetry. eapply Forall2_length, Hps. }
  assert (Hwf0 : Forall (λ r, length (cells r) = length (columns sel)) (rows sel)).
  { rewrite Hrows, Hcols. apply Forall_fmap, Forall_forall. intros r _; simpl.
    rewrite length_fmap. exact Hlen. }
  assert (Hc1 : columns f1 = bpx_vars) by exact Hcols.
  assert (Hr1 : rows f1 =
    (λ r, {| row_label := row_label r;
             cells := zip_with (aligned B64.sub (reduce0 col_mean sel))
                        bpx_vars (cells r) |}) <$> rows sel).
  { rewrite <- Hcols. apply inplace_method_rows; [|exact Hwf0].
    rewrite Hcols. apply NoDup_bpx_vars. }
  assert (Hwf1 : Forall (λ r, length (cells r) = length (columns f1)) (rows f1)).
  { rewrite Hr1, Hc1. apply Forall_fmap. eapply Forall_impl; [exact Hwf0|].
    intros r Hr; unfold compose; cbn [cells]. cbv beta in Hr. rewrite length_zip_with, Hr, Hcols. lia. }
  rewrite (inplace_method_rows B64.div f1); [|rewrite Hc1; apply NoDup_bpx_vars|exact Hwf1].
  rewrite Hc1, Hr1, Hrows, <- !list_fmap_compose.
  split; [exact Hc1|]. split; [apply length_fmap|].
  intros i r Hi. rewrite list_lookup_fmap, Hi. eexists. split; [reflexivity|].
  cbn [compose row_label cells select_row]. split; [reflexivity|].
  split.
  { rewrite !length_zip_with, length_fmap, Hlen. lia. }
  intros j c p Hj Hp.
  assert (Hpj : ps !! j = Some p).
  { destruct (Forall2_lookup_l _ _ _ _ _ Hps Hj) as (p' & Hp' & Hcp). congruence. }
  rewrite !lookup_zip_with, Hj, list_lookup_fmap, Hpj; cbn [mbind option_bind fmap option_fmap option_map].
  f_equal. unfold aligned.
  assert (Hcj : col_pos (columns sel) c = Some j).
  { rewrite Hcols. apply col_pos_lookup_0; [apply NoDup_bpx_vars|exact Hj]. }
  rewrite (series_get_reduce0 _ sel c j Hcj), (series_get_reduce0 _ da c p Hp).
  unfold column at 1. rewrite Hrows, (column_select_row da ps j p Hpj).
  reflexivity.
Qed.
(** The state the standardization leaves: [ds] is bound to a new object,
    the standardized copy; nothing else has changed. *)
Lemma standardize_run (s : state) (l : loc) (da ds : DataFrame) :
  env s !! "da"%string = Some l →
  heap s !! l = Some (OFrame da) →
  standardized col_mean col_std da = Some ds →
  standardize col_mean col_std s =
  (Return tt,
   {| files := files s;
      env := <["ds"%string := fresh (dom (heap s))]> (env s);
      heap := <[fresh (dom (heap s)) := OFrame ds]> (heap s);
      stdout := stdout s |}).
Proof.
  intros Hda Hl Hds. unfold standardized in Hds.
  destruct (loc_cols da bpx_vars) as [sel|] eqn:Hsel; [|discriminate].
  cbn [mbind option_bind] in Hds. injection Hds as <-.
  set (l' := fresh (dom (heap s))).
  assert (Hne : l' ≠ l).
  { intros Heq. pose proof (fresh_loc_None (heap s)) as Hf.
    fold l' in Hf. rewrite Heq in Hf. congruence. }
  unfold standardize.
  rewrite (run_bind _ _ s s da) by (apply (run_name_frame _ l); assumption).
  rewrite Hsel. rewrite (run_bind _ _ s s sel) by reflexivity.
  erewrite run_bind by reflexivity. fold l'.
  erewrite run_bind by reflexivity.
  set (f1 := inplace_method B64.sub sel (reduce0 col_mean sel)).
  erewrite (run_bind _ _ _ _ l') by (apply run_name; apply lookup_insert_eq).
  erewrite (run_bind _ _ _ _ sel) by (apply run_get_frame; apply lookup_insert_eq).
  erewrite (run_bind _ _ _ _ sel)
    by (apply (run_name_frame _ l'); apply lookup_insert_eq).
  erewrite run_bind by reflexivity.
  erewrite run_bind by reflexivity.
  erewrite (run_bind _ _ _ _ l') by (apply run_name; apply lookup_insert_eq).
  erewrite (run_bind _ _ _ _ f1) by (apply run_get_frame; apply lookup_insert_eq).
  erewrite (run_bind _ _ _ _ da).
  2:{ apply (run_name_frame _ l); cbn [env heap].
      - rewrite !lookup_insert_ne by discriminate. exact Hda.
      - rewrite !lookup_insert_ne by exact Hne. exact Hl. }
  erewrite run_bind by reflexivity.
  unfold assign, update; cbn [files env heap stdout].
  rewrite !insert_insert_eq. reflexivity.
Qed.
Lemma standardized_is_Some (da : DataFrame) :
  bpx_vars ⊆ columns da → is_Some (standardized col_mean col_std da).
Proof.
  intros Hsub. unfold standardized, loc_cols.
  destruct (loc_cols_is_Some da bpx_vars Hsub) as [ps ->].
  eexists; reflexivity.
Qed.

(** A failing selection leaves the state as it was. *)
Lemma standardize_KeyError (s : state) (l : loc) (da : DataFrame) :
  env s !! "da"%string = Some l →
  heap s !! l = Some (OFrame da) →
  standardized col_mean col_std da = None →
  standardize col_mean col_std s = (Raise KeyError, s).
Proof.
  intros Hda Hl Hds. unfold standardized in Hds.
  destruct (loc_cols da bpx_vars) as [sel|] eqn:Hsel; [discriminate|].
  unfold standardize.
  rewrite (run_bind _ _ s s da) by (apply (run_name_frame _ l); assumption).
  rewrite Hsel. reflexivity.
Qed.

(** The projection only allocates: whatever its outcome, the objects that
    were in the heap stay as they are, and so does the binding of a name
    other than [scores]. *)
Lemma keeping_project (x : string) : x ≠ "scores"%string → keeping x project.
Proof.
  intros Hne. unfold project.
  repeat first
    [ apply keeping_bind; [|intros ?]
    | apply keeping_name | apply keeping_get_frame | apply keeping_get_array
    | apply keeping_try_some | apply keeping_alloc
    | apply keeping_assign; exact Hne ].
Qed.

(** A projection that returns has bound [scores] to a new array. *)
Lemma project_Return (s s' : state) :
  project s = (Return tt, s') →
  ∃ sc, env s' !! "scores"%string = Some (fresh (dom (heap s))) ∧
        heap s' !! fresh (dom (heap s)) = Some (OArray sc).
Proof.
  unfold project, mbind, M_bind.
  destruct (name "ds" s) as [[l1|e1] s1] eqn:H1; [|discriminate].
  destruct (get_frame l1 s1) as [[ds|e2] s2] eqn:H2; [|discriminate].
  destruct (name "eig" s2) as [[l3|e3] s3] eqn:H3; [|discriminate].
  destruct (get_array l3 s3) as [[eig|e4] s4] eqn:H4; [|discriminate].
  assert (s4 = s) as ->.
  { unfold name, get_frame, get_array in *.
    repeat match goal with
           | H : match ?e with _ => _ end = _ |- _ => destruct e; simplify_eq
           end; reflexivity. }
  destruct (np_dot _ _ eig) as [sc|]; [|discriminate].
  cbn. intros [= <-]. exists sc. cbn [env heap].
  split; apply lookup_insert_eq.
Qed.

Lemma div_zero_not_finite (x z : float64) :
  B64.is_zero z = true → B64.is_finite (B64.div x z) = false.
Proof. destruct z; try discriminate. intros _. destruct x; reflexivity. Qed.

(** C10. Cell 15 in a state where [da] is bound to a frame: whatever the
    outcome of the cell, [da] is still bound to the same object, that object
    and every other object that existed before the cell have the value they
    had, and when the cell returns, [ds] and [scores] are bound to objects
    other than the one [da] is bound to, [ds] to the standardized copy. *)
Theorem cell15_leaves_da_unchanged (s : state) (l : loc) (da : DataFrame) :
  env s !! "da"%string = Some l →
  heap s !! l = Some (OFrame da) →
  ∀ (o : outcome unit) (s' : state),
    cell15 col_mean col_std s = (o, s') →
    env s' !! "da"%string = Some l ∧
    heap s' !! l = Some (OFrame da) ∧
    (∀ l0 obj, heap s !! l0 = Some obj → heap s' !! l0 = Some obj) ∧
    (o = Return tt →
     ∃ (l_ds l_sc : loc) (ds : DataFrame) (sc : list (list float64)),
       l_ds ≠ l ∧ l_sc ≠ l ∧
       standardized col_mean col_std da = Some ds ∧
       env s' !! "ds"%string = Some l_ds ∧
       heap s' !! l_ds = Some (OFrame ds) ∧
       env s' !! "scores"%string = Some l_sc ∧
       heap s' !! l_sc = Some (OArray sc)).
Proof.
  intros Hda Hl o s' Hrun. unfold cell15 in Hrun.
  destruct (standardized col_mean col_std da) as [ds|] eqn:Hds.
  - rewrite (run_bind _ _ s _ tt (standardize_run s l da ds Hda Hl Hds)) in Hrun.
    set (l1 := fresh (dom (heap s))) in *.
    set (s1 := {| files := files s; env := <["ds"%string := l1]> (env s);
                  heap := <[l1 := OFrame ds]> (heap s); stdout := stdout s |}) in *.
    assert (Hne : l1 ≠ l).
    { intros Heq. pose proof (fresh_loc_None (heap s)) as Hf.
      fold l1 in Hf. rewrite Heq in Hf. congruence. }
    assert (Hl1 : heap s1 !! l = Some (OFrame da)).
    { cbn [s1 heap]. rewrite lookup_insert_ne by exact Hne. exact Hl. }
    destruct (keeping_project "da" ltac:(discriminate) s1 o s' Hrun) as [He Hh].
    destruct (keeping_project "ds" ltac:(discriminate) s1 o s' Hrun) as [He' _].
    split.
    { rewrite He. cbn [s1 env]. rewrite lookup_insert_ne by discriminate. exact Hda. }
    split; [apply Hh, Hl1|].
    split.
    { intros l0 obj Hl0. apply Hh. cbn [s1 heap].
      rewrite lookup_insert_ne; [exact Hl0|].
      intros <-. unfold l1 in Hl0. rewrite fresh_loc_None in Hl0. discriminate. }
    intros ->. destruct (project_Return s1 s' Hrun) as (sc & Hsc1 & Hsc2).
    exists l1, (fresh (dom (heap s1))), ds, sc.
    split; [exact Hne|]. split.
    { intros Heq. pose proof (fresh_loc_None (heap s1)) as Hf.
      rewrite Heq in Hf. congruence. }
    split; [reflexivity|]. split.
    { rewrite He'. cbn [s1 env]. apply lookup_insert_eq. }
    split; [|split; assumption].
    apply Hh. cbn [s1 heap]. apply lookup_insert_eq.
  - rewrite (run_bind_raise _ _ s s KeyError
               (standardize_KeyError s l da Hda Hl Hds)) in Hrun.
    injection Hrun as <- <-.
    split; [exact Hda|]. split; [exact Hl|]. split; [tauto|discriminate].
Qed.

Lemma selected_col_pos (da : DataFrame) (j : nat) (c : string) :
  columns da = selected_columns → bpx_vars !! j = Some c →
  col_pos (columns da) c = Some j.
Proof.
  intros -> Hj. unfold selected_columns.
  apply col_pos_lookup; [apply NoDup_bpx_vars|exact Hj].
Qed.

Lemma selected_subseteq (da : DataFrame) :
  columns da = selected_columns → bpx_vars ⊆ columns da.
Proof.
  intros -> c Hc. unfold selected_columns. apply elem_of_app. left. exact Hc.
Qed.

(** C1. The standardization statements in a state where [da] is bound to the
    filtered frame: they return, and leave [ds] bound to a frame with exactly
    the six columns of [bpx_vars] and the rows of [da], in which the cell of
    row [i] and column [j] is the cell of [da] there, minus the mean of
    column [j], divided by the standard deviation of column [j]; the series
    of divisors [da.std(0)] has the eight labels of [da], the last two being
    [SEQN] and [BPXPLS]. *)
Theorem standardize_columns_and_cells (s : state) (l : loc) (da : DataFrame) :
  env s !! "da"%string = Some l →
  heap s !! l = Some (OFrame da) →
  columns da = selected_columns →
  ∃ (l' : loc) (ds : DataFrame) (s' : state),
    standardize col_mean col_std s = (Return tt, s') ∧
    env s' !! "ds"%string = Some l' ∧
    heap s' !! l' = Some (OFrame ds) ∧
    columns ds = bpx_vars ∧ length (columns ds) = 6 ∧
    s_index (reduce0 col_std da) = bpx_vars ++ ["SEQN"; "BPXPLS"]%string ∧
    length (s_values (reduce0 col_std da)) = 8 ∧
    length (rows ds) = length (rows da) ∧
    ∀ i r, rows da !! i = Some r →
      ∃ r', rows ds !! i = Some r' ∧ row_label r' = row_label r ∧
            length (cells r') = 6 ∧
            ∀ j, j < 6 →
              cells r' !! j =
              Some (B64.div (B64.sub (cell_at r j) (col_mean (column da j)))
                            (col_std (column da j))).
Proof.
  intros Hda Hl Hcols.
  destruct (standardized_is_Some da (selected_subseteq da Hcols)) as [ds Hds].
  destruct (standardized_rows da ds Hds) as (Hc & Hlen & Hcells).
  eexists _, ds, _. split; [apply (standardize_run s l da ds Hda Hl Hds)|].
  cbn [env heap]. split; [apply lookup_insert_eq|].
  split; [apply lookup_insert_eq|]. split; [exact Hc|].
  split; [rewrite Hc; reflexivity|].
  split; [exact Hcols|].
  split; [cbn [reduce0 s_values]; rewrite length_fmap, length_seq, Hcols; reflexivity|].
  split; [exact Hlen|].
  intros i r Hi. destruct (Hcells i r Hi) as (r' & Hr' & Hlab & Hlen' & Hj).
  exists r'. split; [exact Hr'|]. split; [exact Hlab|]. split; [exact Hlen'|].
  intros j Hlt.
  destruct (lookup_lt_is_Some_2 bpx_vars j Hlt) as [c Hc'].
  apply (Hj j c j Hc'), selected_col_pos; assumption.
Qed.

(** C8. When the standard deviation of a selected column of [da] is zero,
    the standardization statements still return, no exception is raised, and
    the standardized copy has the six columns and a row for every row of
    [da]; in each of these rows the cell of that column is there, it is the
    centered value divided by the zero deviation, and it is an infinity or
    NaN. *)
Theorem standardize_zero_std_not_finite (s : state) (l : loc) (da : DataFrame)
    (j : nat) :
  env s !! "da"%string = Some l →
  heap s !! l = Some (OFrame da) →
  columns da = selected_columns →
  j < 6 →
  B64.is_zero (col_std (column da j)) = true →
  ∃ (l' : loc) (ds : DataFrame) (s' : state),
    standardize col_mean col_std s = (Return tt, s') ∧
    env s' !! "ds"%string = Some l' ∧
    heap s' !! l' = Some (OFrame ds) ∧
    columns ds = bpx_vars ∧
    length (rows ds) = length (rows da) ∧
    ∀ i r, rows da !! i = Some r →
      ∃ r' x, rows ds !! i = Some r' ∧
              length (cells r') = 6 ∧
              cells r' !! j = Some x ∧
              x = B64.div (B64.sub (cell_at r j) (col_mean (column da j)))
                          (col_std (column da j)) ∧
              B64.is_finite x = false.
Proof.
  intros Hda Hl Hcols Hlt Hzero.
  destruct (standardized_is_Some da (selected_subseteq da Hcols)) as [ds Hds].
  destruct (standardized_rows da ds Hds) as (Hc & Hlen & Hcells).
  eexists _, ds, _. split; [apply (standardize_run s l da ds Hda Hl Hds)|].
  cbn [env heap]. split; [apply lookup_insert_eq|].
  split; [apply lookup_insert_eq|].
  split; [exact Hc|]. split; [exact Hlen|].
  intros i r Hr.
  destruct (Hcells i r Hr) as (r' & Hr' & _ & Hlen' & Hj).
  destruct (lookup_lt_is_Some_2 bpx_vars j Hlt) as [c Hc'].
  eexists r', _. split; [exact Hr'|]. split; [exact Hlen'|].
  split; [exact (Hj j c j Hc' (selected_col_pos da j c Hcols Hc'))|].
  split; [reflexivity|].
  apply div_zero_not_finite, Hzero.
Qed.

End StandardizationFacts.

(** ** Sorting the eigen-decomposition *)

Lemma SFcompare_antisym (a b : float64) :
  SFcompare b a = CompOpp <$> SFcompare a b.
Proof.
  destruct a as [sa|sa| |sa ma ea], b as [sb|sb| |sb mb eb]; simpl;
    try reflexivity; try (destruct sa; reflexivity);
    try (destruct sb; reflexivity); try (destruct sa, sb; reflexivity).
  f_equal. destruct sa, sb; try reflexivity;
    rewrite (Z.compare_antisym ea eb); destruct (ea ?= eb)%Z; simpl;
    try reflexivity;
    rewrite <- (Pos.compare_cont_antisym _ _ Eq); simpl;
    try rewrite CompOpp_involutive; reflexivity.
Qed.

Lemma ltb_asym (a b : float64) : B64.ltb a b = true → B64.ltb b a = false.
Proof.
  unfold B64.ltb, SFltb. rewrite (SFcompare_antisym a b).
  destruct (SFcompare a b) as [[]|]; simpl; congruence.
Qed.

Lemma ltb_not_nan (a b : float64) :
  B64.ltb a b = true → B64.is_nan a = false ∧ B64.is_nan b = false.
Proof. destruct a, b; simpl; try discriminate; auto. Qed.

Lemma sort_lt_asym (a b : float64) :
  B64.sort_lt a b = true → B64.sort_lt b a = false.
Proof.
  unfold B64.sort_lt. intros Hab.
  apply orb_true_iff in Hab as [Hlt|Hnan].
  - destruct (ltb_not_nan a b Hlt) as [Ha Hb].
    rewrite (ltb_asym a b Hlt), Ha. reflexivity.
  - apply andb_true_iff in Hnan as [Hb Ha].
    destruct b; try discriminate. destruct a; try discriminate; reflexivity.
Qed.

(** Without NaN, "not less" in numpy's order is IEEE "greater or equal". *)
Lemma sort_lt_false_leb (a b : float64) :
  B64.is_nan a = false → B64.is_nan b = false →
  B64.sort_lt a b = false → B64.leb b a = true.
Proof.
  unfold B64.sort_lt, B64.leb, B64.ltb, SFleb, SFltb. intros Ha Hb Hlt.
  apply orb_false_iff in Hlt as [Hlt _].
  rewrite (SFcompare_antisym a b).
  destruct a, b; try discriminate; simpl in *;
    repeat match goal with
           | |- context [match ?c with Eq => _ | Lt => _ | Gt => _ end] =>
             destruct c eqn:?
           | H : context [match ?c with Eq => _ | Lt => _ | Gt => _ end] |- _ =>
             destruct c eqn:?
           | s : bool |- _ => destruct s
           end; simpl in *; congruence.
Qed.

Lemma insert_key_perm (p : nat * float64) (l : list (nat * float64)) :
  insert_key p l ≡ₚ p :: l.
Proof.
  induction l as [|q l IH]; simpl; [reflexivity|].
  destruct (B64.sort_lt (snd p) (snd q)); [reflexivity|].
  rewrite IH. apply Permutation_swap.
Qed.

Lemma insert_key_HdRel (p q : nat * float64) (l : list (nat * float64)) :
  asc q p → HdRel asc q l → HdRel asc q (insert_key p l).
Proof.
  intros Hqp Hql. destruct l as [|r l]; simpl; [constructor; exact Hqp|].
  destruct (B64.sort_lt (snd p) (snd r)); constructor; [exact Hqp|].
  inversion Hql; assumption.
Qed.

Lemma insert_key_sorted (p : nat * float64) (l : list (nat * float64)) :
  Sorted asc l → Sorted asc (insert_key p l).
Proof.
  induction 1 as [|q l Hs IH Hhd]; simpl; [repeat constructor|].
  destruct (B64.sort_lt (snd p) (snd q)) eqn:Hlt.
  - constructor; [constructor; assumption|].
    constructor. unfold asc. apply sort_lt_asym, Hlt.
  - constructor; [exact IH|]. apply insert_key_HdRel; [exact Hlt|exact Hhd].
Qed.

Lemma foldl_insert_perm (l acc : list (nat * float64)) :
  foldl (λ acc p, insert_key p acc) acc l ≡ₚ l ++ acc.
Proof.
  revert acc. induction l as [|p l IH]; intros acc; simpl; [reflexivity|].
  rewrite IH, insert_key_perm. symmetry. apply Permutation_middle.
Qed.

Lemma foldl_insert_sorted (l acc : list (nat * float64)) :
  Sorted asc acc → Sorted asc (foldl (λ acc p, insert_key p acc) acc l).
Proof.
  revert acc. induction l as [|p l IH]; intros acc Hs; simpl; [exact Hs|].
  apply IH, insert_key_sorted, Hs.
Qed.

Lemma isort_perm (l : list (nat * float64)) : isort l ≡ₚ l.
Proof. unfold isort. rewrite foldl_insert_perm, app_nil_r. reflexivity. Qed.

Lemma isort_sorted (l : list (nat * float64)) : Sorted asc (isort l).
Proof. apply foldl_insert_sorted. constructor. Qed.

(** [np.argsort] returns a permutation of the indices. *)
Lemma argsort_perm (v : list float64) : argsort v ≡ₚ seq 0 (length v).
Proof.
  unfold argsort. rewrite isort_perm. rewrite fst_zip; [reflexivity|].
  rewrite length_seq. reflexivity.
Qed.

Lemma zip_seq_lookup (v : list float64) :
  Forall (λ p, v !! fst p = Some (snd p)) (zip (seq 0 (length v)) v).
Proof.
  apply Forall_lookup. intros i [k x] Hi.
  apply lookup_zip_with_Some in Hi as (k' & x' & [= -> ->] & Hk & Hx).
  apply lookup_seq in Hk as [-> _]. exact Hx.
Qed.

Lemma take_idx_pairs {A : Type} (v : list A) (L : list (nat * A)) :
  Forall (λ p, v !! fst p = Some (snd p)) L →
  take_idx v (fst <$> L) = Some (snd <$> L).
Proof.
  intros HL. apply mapM_Some_2.
  induction HL as [|p L Hp _ IH]; simpl; constructor; assumption.
Qed.

Lemma take_idx_is_Some {A : Type} (row : list A) (ii : list nat) :
  Forall (λ i, i < length row) ii → is_Some (take_idx row ii).
Proof.
  intros Hii. apply mapM_is_Some. eapply Forall_impl; [exact Hii|].
  intros i Hi. apply lookup_lt_is_Some_2, Hi.
Qed.

Lemma take_idx_lookup {A : Type} (row row' : list A) (ii : list nat) (i j : nat) :
  take_idx row ii = Some row' → ii !! j = Some i → row' !! j = row !! i.
Proof.
  intros Ht Hj. apply mapM_Some_1 in Ht.
  destruct (Forall2_lookup_l _ _ _ _ _ Ht Hj) as (x & Hx & Hi). congruence.
Qed.

Lemma mat_column_take_idx {A : Type} (eig eig' : list (list A))
    (ii : list nat) (i j : nat) :
  mapM (λ row, take_idx row ii) eig = Some eig' → ii !! j = Some i →
  mat_column eig' j = mat_column eig i.
Proof.
  intros Hm Hj. apply mapM_Some_1 in Hm. unfold mat_column.
  induction Hm as [|row row' eig eig' Hrow _ IH]; simpl; [reflexivity|].
  rewrite (take_idx_lookup row row' ii i j Hrow Hj).
  unfold omap in IH. rewrite IH. reflexivity.
Qed.

(** C5. The sorting step on eigenvalues [eiv] and an array [eig] with one
    column per eigenvalue: it returns arrays [eiv'] and [eig'] and there is a
    permutation [ii] of the indices such that entry [j] of [eiv'] is entry
    [ii[j]] of [eiv] and column [j] of [eig'] is column [ii[j]] of [eig], so
    every column stays with its eigenvalue; no entry of [eiv'] is less than
    the next one in the order numpy sorts by, which, when no eigenvalue is
    NaN, means that every entry is greater than or equal to the next. *)
Theorem sort_eig_descending_paired (eiv : list float64)
    (eig : list (list float64)) :
  Forall (λ row, length row = length eiv) eig →
  ∃ (ii : list nat) (eiv' : list float64) (eig' : list (list float64)),
    sort_eig eiv eig = Some (eiv', eig') ∧
    ii ≡ₚ seq 0 (length eiv) ∧
    (∀ j i, ii !! j = Some i →
       eiv' !! j = eiv !! i ∧ mat_column eig' j = mat_column eig i) ∧
    Sorted (λ a b, B64.sort_lt a b = false) eiv' ∧
    (Forall (λ x, B64.is_nan x = false) eiv →
     Sorted (λ a b, B64.leb b a = true) eiv').
Proof.
  intros Hwf. unfold sort_eig.
  set (L := isort (zip (seq 0 (length eiv)) eiv)).
  set (ii := reverse (argsort eiv)).
  assert (Hii : ii = fst <$> reverse L) by (unfold ii, argsort; apply eq_sym, fmap_reverse).
  assert (Hperm : ii ≡ₚ seq 0 (length eiv)).
  { unfold ii. rewrite reverse_Permutation. apply argsort_perm. }
  assert (HL : Forall (λ p, eiv !! fst p = Some (snd p)) (reverse L)).
  { rewrite reverse_Permutation. unfold L. rewrite isort_perm. apply zip_seq_lookup. }
  assert (Heiv : take_idx eiv ii = Some (snd <$> reverse L)).
  { rewrite Hii. apply take_idx_pairs, HL. }
  assert (Heig : is_Some (mapM (λ row, take_idx row ii) eig)).
  { apply mapM_is_Some. eapply Forall_impl; [exact Hwf|].
    intros row Hrow. apply take_idx_is_Some, Forall_forall. intros i Hi.
    rewrite Hperm in Hi. apply elem_of_seq in Hi. cbv beta in Hrow. lia. }
  destruct Heig as [eig' Heig].
  exists ii, (snd <$> reverse L), eig'.
  rewrite Heiv, Heig. split; [reflexivity|]. split; [exact Hperm|].
  assert (Hdesc : Sorted (λ a b, B64.sort_lt a b = false) (snd <$> reverse L)).
  { apply (Sorted_fmap snd (flip asc)); [|apply Sorted_reverse, isort_sorted].
    intros p q Hpq. exact Hpq. }
  split; [|split; [exact Hdesc|]].
  - intros j i Hj. split; [|eapply mat_column_take_idx; eassumption].
    eapply take_idx_lookup; eassumption.
  - intros Hnan.
    assert (Hnan' : Forall (λ x, B64.is_nan x = false) (snd <$> reverse L)).
    { apply Forall_fmap. eapply Forall_impl; [exact HL|].
      intros p Hp. eapply (proj1 (Forall_forall _ _) Hnan), list_elem_of_lookup_2, Hp. }
    revert Hdesc Hnan'. generalize (snd <$> reverse L). intros l Hs.
    induction Hs as [|a l Hs IH Hhd]; intros Hn; [constructor|].
    apply Forall_cons in Hn as [Ha Hn]. constructor; [apply IH, Hn|].
    destruct Hhd as [|b l Hab]; constructor.
    apply Forall_cons in Hn as [Hb _]. apply sort_lt_false_leb; assumption.
Qed.

(** ** Proportions of variance *)








(** ** The correlation matrix *)

Lemma zip_with_fmap_same {B C D E : Type} (f : C → D → E) (g : B → C)
    (h : B → D) (l : list B) :
  zip_with f (g <$> l) (h <$> l) = (λ x, f (g x) (h x)) <$> l.
Proof. rewrite zip_with_fmap_l, zip_with_fmap_r, zip_with_diag. reflexivity. Qed.

Section CorrcoefFacts.
Context {A : Type} `{Num A}.

Lemma cov_fmap (X : list (list A)) :
  cov X = (λ xi, cov_entry (ncols X) xi <$> X) <$> X.
Proof.
  unfold cov, cov_entry. rewrite <- !list_fmap_compose.
  apply list_fmap_ext. intros _ xi _. unfold compose.
  rewrite <- !list_fmap_compose. reflexivity.
Qed.

Lemma diag_fmap (f : list A → list A → A) (X : list (list A)) :
  diag ((λ xi, f xi <$> X) <$> X) = (λ x, f x x) <$> X.
Proof.
  apply list_eq. intros i. unfold diag.
  rewrite list_lookup_imap, !list_lookup_fmap.
  destruct (X !! i) as [x|] eqn:Hi; [|reflexivity].
  cbn [fmap option_fmap option_map]. rewrite list_lookup_fmap, Hi. reflexivity.
Qed.

Lemma corrcoef_single (x : list A) :
  corrcoef [x] =
  [[num_div (cov_entry (length x) x x) (cov_entry (length x) x x)]].
Proof. unfold corrcoef. rewrite cov_fmap. reflexivity. Qed.

Lemma corrcoef_general (X : list (list A)) :
  length X ≠ 1 →
  corrcoef X = (λ xi, corr_entry (ncols X) xi <$> X) <$> X.
Proof.
  intros Hlen. unfold corrcoef. rewrite cov_fmap.
  set (n := ncols X).
  set (c := (λ xi : list A, cov_entry n xi <$> X) <$> X).
  assert (Hgen :
    (λ row : list A, clip1 <$> row) <$>
      ((λ row : list A, zip_with num_div row (num_sqrt <$> diag c)) <$>
       zip_with (λ (row : list A) (s : A), (λ v, num_div v s) <$> row)
         c (num_sqrt <$> diag c))
    = (λ xi : list A, corr_entry n xi <$> X) <$> X).
  { unfold c. rewrite diag_fmap, <- !list_fmap_compose.
    rewrite zip_with_fmap_same, <- !list_fmap_compose.
    apply list_fmap_ext. intros _ xi _. unfold compose.
    rewrite <- !list_fmap_compose, zip_with_fmap_same, <- !list_fmap_compose.
    reflexivity. }
  destruct X as [|x [|y X']]; [exact Hgen|simpl in Hlen; lia|exact Hgen].
Qed.

Lemma corrcoef_length (X : list (list A)) :
  length (corrcoef X) = length X ∧
  Forall (λ row, length row = length X) (corrcoef X).
Proof.
  destruct (decide (length X = 1)) as [H1|H1].
  - destruct X as [|x [|y X']]; try discriminate.
    rewrite corrcoef_single. split; [reflexivity|]. repeat constructor.
  - rewrite corrcoef_general by exact H1. split; [apply length_fmap|].
    apply Forall_fmap, Forall_forall. intros x _. apply length_fmap.
Qed.

Lemma entry_fmap2 (f : list A → list A → A) (X : list (list A))
    (i j : nat) (a : A) :
  entry ((λ xi, f xi <$> X) <$> X) i j = Some a →
  ∃ xi xj, X !! i = Some xi ∧ X !! j = Some xj ∧ a = f xi xj.
Proof.
  unfold entry. rewrite list_lookup_fmap.
  destruct (X !! i) as [xi|] eqn:Hi; [|discriminate].
  cbn [fmap option_fmap option_map mbind option_bind].
  rewrite list_lookup_fmap.
  destruct (X !! j) as [xj|] eqn:Hj; [|discriminate].
  intros [= <-]. exists xi, xj. auto.
Qed.

End CorrcoefFacts.

(** *** Binary64 *)

Lemma ltb_false_leb (a b : float64) :
  B64.is_nan a = false → B64.is_nan b = false →
  B64.ltb a b = false → B64.leb b a = true.
Proof.
  intros Ha Hb Hlt. apply sort_lt_false_leb; try assumption.
  unfold B64.sort_lt. rewrite Hlt, Hb. reflexivity.
Qed.

(** What [np.clip(x, -1, 1)] returns in binary64 is NaN or lies between -1
    and 1. *)
Lemma clip1_b64_range (x : float64) :
  B64.is_nan (clip1 x) = true ∨
  (B64.leb (B64.of_Z (-1)) (clip1 x) = true ∧
   B64.leb (clip1 x) (B64.of_Z 1) = true).
Proof.
  unfold clip1. cbn [num_minimum num_maximum num_of_Z float64_num].
  unfold B64.maximum, B64.minimum.
  change (B64.is_nan (B64.of_Z (-1))) with false.
  change (B64.is_nan (B64.of_Z 1)) with false. cbv iota.
  destruct (B64.is_nan x) eqn:Hx.
  { rewrite Hx. left. exact Hx. }
  destruct (B64.ltb x (B64.of_Z (-1))) eqn:Hlo.
  { right. vm_compute. split; reflexivity. }
  rewrite Hx. destruct (B64.ltb (B64.of_Z 1) x) eqn:Hhi.
  { right. vm_compute. split; reflexivity. }
  right. split.
  - apply ltb_false_leb; [exact Hx|reflexivity|exact Hlo].
  - apply ltb_false_leb; [reflexivity|exact Hx|exact Hhi].
Qed.

(** The correlation matrix of two or more variables, as computed in binary64:
    it has as many rows and columns as there are variables, and every entry
    is NaN or lies between -1 and 1. *)
Lemma corrcoef_b64_range (X : list (list float64)) :
  length X ≠ 1 →
  length (corrcoef X) = length X ∧
  Forall (λ row, length row = length X) (corrcoef X) ∧
  ∀ i j a, entry (corrcoef X) i j = Some a →
    B64.is_nan a = true ∨
    (B64.leb (B64.of_Z (-1)) a = true ∧ B64.leb a (B64.of_Z 1) = true).
Proof.
  intros H1. destruct (corrcoef_length X) as [Hr Hc].
  split; [exact Hr|]. split; [exact Hc|].
  rewrite corrcoef_general by exact H1. intros i j a Ha.
  apply entry_fmap2 in Ha as (xi & xj & _ & _ & ->).
  unfold corr_entry. apply clip1_b64_range.
Qed.


(** ** The theorems at the small table *)

(** Cell 3 on the small table: the second subject is dropped. *)
Lemma cell3_keeps_complete_rows_witness :
  ∃ (ps : list nat) (l : loc) (da : DataFrame) (s' : state),
    mapM (col_pos (columns example_df)) selected_columns = Some ps ∧
    cell3 state_before_cell3 = (Return tt, s') ∧
    env s' !! "da"%string = Some l ∧
    heap s' !! l = Some (OFrame da) ∧
    columns da = selected_columns ∧
    rows da `sublist_of` (select_row ps <$> rows example_df) ∧
    (∀ r, r ∈ rows example_df →
       (select_row ps r ∈ rows da ↔
        ∀ p, p ∈ ps → B64.is_nan (cell_at r p) = false)) ∧
    stdout s' = stdout state_before_cell3 ++
      [PShape (length (rows da)) 8;
       PDtypes ((λ c, (c, "float64"%string)) <$> selected_columns)].
Proof.
  apply (cell3_keeps_complete_rows state_before_cell3 example_df).
  - vm_compute. reflexivity.
  - apply (bool_decide_unpack _). vm_compute. exact I.
Defined.

(** The standardization of the filtered small table. *)
Lemma standardize_columns_and_cells_witness :
  ∃ (l' : loc) (ds : DataFrame) (s' : state),
    standardize nanmean nanstd (state_before_cell15 example_da) = (Return tt, s') ∧
    env s' !! "ds"%string = Some l' ∧
    heap s' !! l' = Some (OFrame ds) ∧
    columns ds = bpx_vars ∧ length (columns ds) = 6 ∧
    s_index (reduce0 nanstd example_da) = bpx_vars ++ ["SEQN"; "BPXPLS"]%string ∧
    length (s_values (reduce0 nanstd example_da)) = 8 ∧
    length (rows ds) = length (rows example_da) ∧
    ∀ i r, rows example_da !! i = Some r →
      ∃ r', rows ds !! i = Some r' ∧ row_label r' = row_label r ∧
            length (cells r') = 6 ∧
            ∀ j, j < 6 →
              cells r' !! j =
              Some (B64.div (B64.sub (cell_at r j) (nanmean (column example_da j)))
                            (nanstd (column example_da j))).
Proof.
  apply (standardize_columns_and_cells nanmean nanstd
           (state_before_cell15 example_da) 1%positive example_da).
  - vm_compute. reflexivity.
  - vm_compute. reflexivity.
  - reflexivity.
Defined.

(** The standardization of the table with a constant first column. *)
Lemma standardize_zero_std_not_finite_witness :
  ∃ (l' : loc) (ds : DataFrame) (s' : state),
    standardize nanmean nanstd (state_before_cell15 constant_da) = (Return tt, s') ∧
    env s' !! "ds"%string = Some l' ∧
    heap s' !! l' = Some (OFrame ds) ∧
    columns ds = bpx_vars ∧
    length (rows ds) = length (rows constant_da) ∧
    ∀ i r, rows constant_da !! i = Some r →
      ∃ r' x, rows ds !! i = Some r' ∧
              length (cells r') = 6 ∧
              cells r' !! 0 = Some x ∧
              x = B64.div (B64.sub (cell_at r 0)
                                   (nanmean (column constant_da 0)))
                          (nanstd (column constant_da 0)) ∧
              B64.is_finite x = false.
Proof.
  apply (standardize_zero_std_not_finite nanmean nanstd
           (state_before_cell15 constant_da) 1%positive constant_da 0).
  - vm_compute. reflexivity.
  - vm_compute. reflexivity.
  - reflexivity.
  - lia.
  - vm_compute. reflexivity.
Defined.

(** Cell 15 on the filtered small table. *)
Lemma cell15_leaves_da_unchanged_witness :
  let r := cell15 nanmean nanstd (state_before_cell15 example_da) in
  env (snd r) !! "da"%string = Some 1%positive ∧
  heap (snd r) !! 1%positive = Some (OFrame example_da) ∧
  (∀ l0 obj, heap (state_before_cell15 example_da) !! l0 = Some obj →
             heap (snd r) !! l0 = Some obj) ∧
  (fst r = Return tt →
   ∃ (l_ds l_sc : loc) (ds : DataFrame) (sc : list (list float64)),
     l_ds ≠ 1%positive ∧ l_sc ≠ 1%positive ∧
     standardized nanmean nanstd example_da = Some ds ∧
     env (snd r) !! "ds"%string = Some l_ds ∧
     heap (snd r) !! l_ds = Some (OFrame ds) ∧
     env (snd r) !! "scores"%string = Some l_sc ∧
     heap (snd r) !! l_sc = Some (OArray sc)).
Proof.
  intros r.
  apply (cell15_leaves_da_unchanged nanmean nanstd
           (state_before_cell15 example_da) 1%positive example_da).
  - vm_compute. reflexivity.
  - vm_compute. reflexivity.
  - apply surjective_pairing.
Defined.

(** The sorting step on three eigenvalues out of order. *)
Lemma sort_eig_descending_paired_witness :
  ∃ (ii : list nat) (eiv' : list float64) (eig' : list (list float64)),
    sort_eig example_eiv example_eig = Some (eiv', eig') ∧
    ii ≡ₚ seq 0 (length example_eiv) ∧
    (∀ j i, ii !! j = Some i →
       eiv' !! j = example_eiv !! i ∧
       mat_column eig' j = mat_column example_eig i) ∧
    Sorted (λ a b, B64.sort_lt a b = false) eiv' ∧
    (Forall (λ x, B64.is_nan x = false) example_eiv →
     Sorted (λ a b, B64.leb b a = true) eiv').
Proof.
  apply (sort_eig_descending_paired example_eiv example_eig).
  repeat constructor.
Defined.




(** * Further properties *)

(** ** Selecting columns and dropping rows *)

Lemma col_pos_None (cs : list string) (c : string) :
  col_pos cs c = None ↔ c ∉ cs.
Proof.
  unfold col_pos. split.
  - intros Hn Hc. destruct (col_pos_is_Some cs c Hc) as [p Hp].
    unfold col_pos in Hp. congruence.
  - intros Hc. destruct (list_find (λ x, x = c) cs) as [[i y]|] eqn:Hf;
      [|reflexivity].
    apply list_find_Some in Hf as (Hi & -> & _).
    exfalso. apply Hc. eapply list_elem_of_lookup_2, Hi.
Qed.

(** X1. [f.loc[:, labels]] raises [KeyError] exactly when some label is not a
    column of [f]. *)
Theorem loc_cols_KeyError_iff (f : DataFrame) (labels : list string) :
  loc_cols f labels = None ↔ ∃ c, c ∈ labels ∧ c ∉ columns f.
Proof.
  unfold loc_cols. split.
  - intros Hn.
    destruct (mapM (col_pos (columns f)) labels) as [ps|] eqn:Hps;
      [discriminate|].
    apply mapM_None, Exists_exists in Hps as (c & Hc & Hpos).
    exists c. split; [exact Hc|]. apply col_pos_None, Hpos.
  - intros (c & Hc & Hnc).
    assert (Hps : mapM (col_pos (columns f)) labels = None).
    { apply mapM_None, Exists_exists. exists c. split; [exact Hc|].
      apply col_pos_None, Hnc. }
    rewrite Hps. reflexivity.
Qed.

(** X2. For a frame whose column labels are distinct and a list [l1] of
    distinct labels: selecting [l2] from the selection of [l1] is selecting
    [l2] from the frame itself, whenever every label of [l2] is in [l1] and
    the first selection succeeds. *)
Theorem loc_cols_loc_cols (f g : DataFrame) (l1 l2 : list string) :
  NoDup (columns f) → NoDup l1 →
  loc_cols f l1 = Some g → l2 ⊆ l1 →
  loc_cols g l2 = loc_cols f l2.
Proof.
  intros _ _ Hg Hsub. apply loc_cols_inv in Hg as (ps1 & Hps1 & Hcols & Hrows).
  assert (Hpos : ∀ c, c ∈ l2 →
    ∃ j p, col_pos l1 c = Some j ∧ ps1 !! j = Some p ∧
           col_pos (columns f) c = Some p).
  { intros c Hc. destruct (col_pos_is_Some l1 c (Hsub c Hc)) as [j Hj].
    pose proof (col_pos_Some _ _ _ Hj) as Hl.
    destruct (Forall2_lookup_l _ _ _ _ _ Hps1 Hl) as (p & Hp & Hcp).
    exists j, p. auto. }
  assert (Hm : ∃ qs ps,
    Forall2 (λ c j, col_pos l1 c = Some j) l2 qs ∧
    Forall2 (λ c p, col_pos (columns f) c = Some p) l2 ps ∧
    Forall2 (λ j p, ps1 !! j = Some p) qs ps).
  { clear Hsub. induction l2 as [|c l2 IH].
    - exists [], []. repeat split; constructor.
    - destruct IH as (qs & ps & Hq & Hp & Hqp).
      { intros c' Hc'. apply Hpos. right. exact Hc'. }
      destruct (Hpos c) as (j & p & Hj & Hjp & Hcp); [left|].
      exists (j :: qs), (p :: ps). repeat split; constructor; assumption. }
  destruct Hm as (qs & ps & Hq & Hp & Hqp).
  apply mapM_Some_2 in Hq, Hp.
  unfold loc_cols. rewrite Hcols, Hq, Hp, Hrows. csimpl. f_equal. f_equal.
  rewrite <- list_fmap_compose. apply list_fmap_ext. intros _ r _.
  unfold compose, select_row; cbn [row_label cells]. f_equal.
  clear Hq Hp. induction Hqp as [|j p qs ps Hjp _ IH]; csimpl; [reflexivity|].
  rewrite IH. f_equal.
  unfold cell_at at 1; cbn [cells]. rewrite list_lookup_fmap, Hjp. reflexivity.
Qed.

Lemma loc_cols_loc_cols_witness :
  loc_cols example_selection ["BPXDI1"; "BPXSY1"]%string =
  loc_cols example_df ["BPXDI1"; "BPXSY1"]%string.
Proof.
  apply (loc_cols_loc_cols example_df example_selection selected_columns).
  - apply (bool_decide_unpack _). vm_compute. exact I.
  - apply (bool_decide_unpack _). vm_compute. exact I.
  - vm_compute. reflexivity.
  - apply (bool_decide_unpack _). vm_compute. exact I.
Defined.

Lemma filter_all {A : Type} (P : A → Prop) `{∀ x, Decision (P x)} (l : list A) :
  Forall P l → filter P l = l.
Proof.
  induction 1 as [|x l Hx _ IH]; [reflexivity|].
  rewrite filter_cons_True by exact Hx. rewrite IH. reflexivity.
Qed.

Lemma Forall_filter_self {A : Type} (P : A → Prop) `{∀ x, Decision (P x)}
    (l : list A) :
  Forall P (filter P l).
Proof. apply Forall_forall. intros x Hx. apply list_elem_of_filter in Hx. tauto. Qed.

(** X3. After [dropna] no cell of the frame is missing, a second [dropna]
    changes nothing, a frame without a missing cell is returned as it is, and
    row labels that were distinct stay distinct. *)
Theorem dropna_idempotent (f : DataFrame) :
  Forall (λ r, Forall (λ x, B64.is_nan x = false) (cells r)) (rows (dropna f)) ∧
  dropna (dropna f) = dropna f ∧
  (Forall complete (rows f) → dropna f = f) ∧
  (NoDup (row_label <$> rows f) → NoDup (row_label <$> rows (dropna f))).
Proof.
  split; [apply (Forall_filter_self complete)|]. split; [|split].
  - unfold dropna; cbn [columns rows]. f_equal.
    apply filter_all, Forall_filter_self.
  - intros Hc. destruct f as [cs rs]. unfold dropna; cbn [columns rows] in *.
    f_equal. apply filter_all, Hc.
  - intros Hnd. eapply sublist_NoDup; [exact Hnd|].
    apply fmap_sublist, dropna_sublist.
Qed.

(** ** Cell 15, run as a whole *)

Section Cell15Facts.

Variable col_mean col_std : list float64 → float64.

Lemma matmul_shape (a b : list (list float64)) :
  length (matmul a b) = length a ∧
  Forall (λ row, length row = ncols b) (matmul a b).
Proof.
  unfold matmul. split; [apply length_fmap|].
  apply Forall_fmap, Forall_forall. intros row _. unfold compose.
  rewrite length_fmap. unfold transpose. rewrite length_fmap, length_seq.
  reflexivity.
Qed.

(** The state the projection leaves when [ds] and [eig] are bound to a frame
    and an array that fit. *)
Lemma project_run (s : state) (l le : loc) (ds : DataFrame)
    (eig : list (list float64)) :
  env s !! "ds"%string = Some l →
  heap s !! l = Some (OFrame ds) →
  env s !! "eig"%string = Some le →
  heap s !! le = Some (OArray eig) →
  length (columns ds) = length eig →
  project s =
  (Return tt,
   {| files := files s;
      env := <["scores"%string := fresh (dom (heap s))]> (env s);
      heap := <[fresh (dom (heap s)) := OArray (matmul (frame_values ds) eig)]>
                (heap s);
      stdout := stdout s |}).
Proof.
  intros Hds Hl Heig Hle Hlen. unfold project.
  rewrite (run_bind _ _ s s ds) by (apply (run_name_frame _ l); assumption).
  rewrite (run_bind _ _ s s eig).
  2:{ rewrite (run_bind _ _ s s le) by (apply run_name, Heig).
      apply run_get_array, Hle. }
  unfold np_dot. rewrite decide_True by exact Hlen.
  rewrite (run_bind _ _ s s _) by reflexivity.
  erewrite run_bind by reflexivity. reflexivity.
Qed.

(** The projection with an array of the wrong height. *)
Lemma project_ValueError (s : state) (l le : loc) (ds : DataFrame)
    (eig : list (list float64)) :
  env s !! "ds"%string = Some l →
  heap s !! l = Some (OFrame ds) →
  env s !! "eig"%string = Some le →
  heap s !! le = Some (OArray eig) →
  length (columns ds) ≠ length eig →
  project s = (Raise ValueError, s).
Proof.
  intros Hds Hl Heig Hle Hlen. unfold project.
  rewrite (run_bind _ _ s s ds) by (apply (run_name_frame _ l); assumption).
  rewrite (run_bind _ _ s s eig).
  2:{ rewrite (run_bind _ _ s s le) by (apply run_name, Heig).
      apply run_get_array, Hle. }
  unfold np_dot. rewrite decide_False by exact Hlen. reflexivity.
Qed.

Lemma standardized_columns (da ds : DataFrame) :
  standardized col_mean col_std da = Some ds → columns ds = bpx_vars.
Proof. intros Hds. apply (standardized_rows col_mean col_std da ds Hds). Qed.

Lemma standardized_None (da : DataFrame) (c : string) :
  c ∈ bpx_vars → c ∉ columns da → standardized col_mean col_std da = None.
Proof.
  intros Hc Hnc. unfold standardized.
  assert (Hn : loc_cols da bpx_vars = None).
  { unfold loc_cols.
    assert (Hps : mapM (col_pos (columns da)) bpx_vars = None).
    { apply mapM_None, Exists_exists. exists c. split; [exact Hc|].
      apply col_pos_None, Hnc. }
    rewrite Hps. reflexivity. }
  rewrite Hn. reflexivity.
Qed.

(** X4. Cell 15 when the frame [da] is bound to lacks one of the six
    blood-pressure columns: the cell raises [KeyError] and leaves the state
    exactly as it was, so neither [ds] nor [scores] is bound or changed. *)
Theorem cell15_KeyError (s : state) (l : loc) (da : DataFrame) (c : string) :
  env s !! "da"%string = Some l →
  heap s !! l = Some (OFrame da) →
  c ∈ bpx_vars → c ∉ columns da →
  cell15 col_mean col_std s = (Raise KeyError, s).
Proof.
  intros Hda Hl Hc Hnc. unfold cell15.
  apply run_bind_raise, standardize_KeyError with (l := l) (da := da);
    [exact Hda|exact Hl|].
  exact (standardized_None da c Hc Hnc).
Qed.

(** X5. Cell 15 before any cell has bound [da]: the cell raises [NameError]
    and leaves the state exactly as it was. *)
Theorem cell15_NameError (s : state) :
  env s !! "da"%string = None →
  cell15 col_mean col_std s = (Raise NameError, s).
Proof.
  intros Hda. unfold cell15. apply run_bind_raise.
  unfold standardize. apply run_bind_raise. apply run_bind_raise.
  unfold name. rewrite Hda. reflexivity.
Qed.

(** The state cell 15 leaves when it returns. *)
Lemma cell15_run (s : state) (l le : loc) (da ds : DataFrame)
    (eig : list (list float64)) :
  env s !! "da"%string = Some l →
  heap s !! l = Some (OFrame da) →
  standardized col_mean col_std da = Some ds →
  env s !! "eig"%string = Some le →
  heap s !! le = Some (OArray eig) →
  length eig = 6 →
  cell15 col_mean col_std s =
  (Return tt,
   {| files := files s;
      env := <["scores"%string :=
                 fresh (dom (<[fresh (dom (heap s)) := OFrame ds]> (heap s)))]>
               (<["ds"%string := fresh (dom (heap s))]> (env s));
      heap := <[fresh (dom (<[fresh (dom (heap s)) := OFrame ds]> (heap s))) :=
                  OArray (matmul (frame_values ds) eig)]>
                (<[fresh (dom (heap s)) := OFrame ds]> (heap s));
      stdout := stdout s |}).
Proof.
  intros Hda Hl Hds Heig Hle Hlen. unfold cell15.
  rewrite (run_bind _ _ s _ tt (standardize_run col_mean col_std s l da ds Hda Hl Hds)).
  set (l1 := fresh (dom (heap s))).
  assert (Hne : l1 ≠ le).
  { intros Heq. pose proof (fresh_loc_None (heap s)) as Hf.
    fold l1 in Hf. rewrite Heq in Hf. congruence. }
  rewrite (project_run _ l1 le ds eig); cbn [files env heap stdout].
  - reflexivity.
  - apply lookup_insert_eq.
  - apply lookup_insert_eq.
  - rewrite lookup_insert_ne by discriminate. exact Heig.
  - rewrite lookup_insert_ne by exact Hne. exact Hle.
  - rewrite (standardized_columns da ds Hds), Hlen. reflexivity.
Qed.

(** X6. Cell 15 when [eig] is bound to an array that does not have six rows:
    the standardization is done, [ds] is bound to the standardized copy, and
    then [np.dot] raises [ValueError]; [scores] is left as it was. *)
Theorem cell15_ValueError (s : state) (l le : loc) (da : DataFrame)
    (eig : list (list float64)) :
  env s !! "da"%string = Some l →
  heap s !! l = Some (OFrame da) →
  bpx_vars ⊆ columns da →
  env s !! "eig"%string = Some le →
  heap s !! le = Some (OArray eig) →
  length eig ≠ 6 →
  ∃ (s' : state) (l' : loc) (ds : DataFrame),
    cell15 col_mean col_std s = (Raise ValueError, s') ∧
    standardized col_mean col_std da = Some ds ∧
    env s' !! "ds"%string = Some l' ∧
    heap s' !! l' = Some (OFrame ds) ∧
    env s' !! "scores"%string = env s !! "scores"%string.
Proof.
  intros Hda Hl Hsub Heig Hle Hlen.
  destruct (standardized_is_Some col_mean col_std da Hsub) as [ds Hds].
  set (l1 := fresh (dom (heap s))).
  assert (Hne : l1 ≠ le).
  { intros Heq. pose proof (fresh_loc_None (heap s)) as Hf.
    fold l1 in Hf. rewrite Heq in Hf. congruence. }
  eexists _, l1, ds. split.
  { unfold cell15.
    rewrite (run_bind _ _ s _ tt
               (standardize_run col_mean col_std s l da ds Hda Hl Hds)).
    fold l1. apply (project_ValueError _ l1 le ds eig); cbn [env heap].
    - apply lookup_insert_eq.
    - apply lookup_insert_eq.
    - rewrite lookup_insert_ne by discriminate. exact Heig.
    - rewrite lookup_insert_ne by exact Hne. exact Hle.
    - rewrite (standardized_columns da ds Hds). exact (not_eq_sym Hlen). }
  cbn [env heap]. split; [exact Hds|]. split; [apply lookup_insert_eq|].
  split; [apply lookup_insert_eq|].
  apply lookup_insert_ne. discriminate.
Qed.

(** X7. When cell 15 runs with [eig] bound to an array of six rows, [scores]
    is bound to an array with one row for every row of [da], each with as
    many entries as [eig] has columns. *)
Theorem cell15_scores_shape (s : state) (l le : loc) (da : DataFrame)
    (eig : list (list float64)) :
  env s !! "da"%string = Some l →
  heap s !! l = Some (OFrame da) →
  bpx_vars ⊆ columns da →
  env s !! "eig"%string = Some le →
  heap s !! le = Some (OArray eig) →
  length eig = 6 →
  ∃ (s' : state) (l' : loc) (sc : list (list float64)),
    cell15 col_mean col_std s = (Return tt, s') ∧
    env s' !! "scores"%string = Some l' ∧
    heap s' !! l' = Some (OArray sc) ∧
    length sc = length (rows da) ∧
    Forall (λ row, length row = ncols eig) sc.
Proof.
  intros Hda Hl Hsub Heig Hle Hlen.
  destruct (standardized_is_Some col_mean col_std da Hsub) as [ds Hds].
  eexists _, _, _. split.
  { apply (cell15_run s l le da ds eig); assumption. }
  cbn [env heap]. split; [apply lookup_insert_eq|].
  split; [apply lookup_insert_eq|].
  destruct (matmul_shape (frame_values ds) eig) as [Hn Hk].
  split; [|exact Hk]. rewrite Hn. unfold frame_values. rewrite length_fmap.
  apply (standardized_rows col_mean col_std da ds Hds).
Qed.

(** X8. Cell 15 can be run again: the second run returns as the first did and
    binds [ds] and [scores] to new objects with the same values as after the
    first run, and the objects of the first run are still in the heap. *)
Theorem cell15_twice (s : state) (l le : loc) (da : DataFrame)
    (eig : list (list float64)) :
  env s !! "da"%string = Some l →
  heap s !! l = Some (OFrame da) →
  bpx_vars ⊆ columns da →
  env s !! "eig"%string = Some le →
  heap s !! le = Some (OArray eig) →
  length eig = 6 →
  ∃ (s1 s2 : state) (l1 l2 k1 k2 : loc) (ds : DataFrame)
    (sc : list (list float64)),
    cell15 col_mean col_std s = (Return tt, s1) ∧
    cell15 col_mean col_std s1 = (Return tt, s2) ∧
    env s1 !! "ds"%string = Some l1 ∧ env s2 !! "ds"%string = Some l2 ∧
    env s1 !! "scores"%string = Some k1 ∧ env s2 !! "scores"%string = Some k2 ∧
    l1 ≠ l2 ∧ k1 ≠ k2 ∧
    heap s1 !! l1 = Some (OFrame ds) ∧ heap s2 !! l2 = Some (OFrame ds) ∧
    heap s2 !! l1 = Some (OFrame ds) ∧
    heap s1 !! k1 = Some (OArray sc) ∧ heap s2 !! k2 = Some (OArray sc) ∧
    heap s2 !! k1 = Some (OArray sc).
Proof.
  intros Hda Hl Hsub Heig Hle Hlen.
  destruct (standardized_is_Some col_mean col_std da Hsub) as [ds Hds].
  pose proof (cell15_run s l le da ds eig Hda Hl Hds Heig Hle Hlen) as Hrun1.
  set (l1 := fresh (dom (heap s))) in *.
  set (h1 := <[l1 := OFrame ds]> (heap s)) in *.
  set (k1 := fresh (dom h1)) in *.
  set (sc := matmul (frame_values ds) eig) in *.
  set (s1 := {| files := files s;
                env := <["scores"%string := k1]> (<["ds"%string := l1]> (env s));
                heap := <[k1 := OArray sc]> h1; stdout := stdout s |}) in *.
  assert (Hl1 : heap s !! l1 = None) by apply fresh_loc_None.
  assert (Hk1 : h1 !! k1 = None) by apply fresh_loc_None.
  assert (Hk1l1 : k1 ≠ l1).
  { intros Heq. rewrite Heq in Hk1. unfold h1 in Hk1.
    rewrite lookup_insert_eq in Hk1. discriminate. }
  assert (Hin : ∀ l0 obj, heap s !! l0 = Some obj → heap s1 !! l0 = Some obj).
  { intros l0 obj Hl0. cbn [s1 heap]. unfold h1.
    rewrite !lookup_insert_ne; [exact Hl0| |]; intros <-.
    - congruence.
    - unfold h1 in Hk1. rewrite lookup_insert_ne in Hk1 by congruence. congruence. }
  assert (Hda1 : env s1 !! "da"%string = Some l).
  { cbn [s1 env]. rewrite !lookup_insert_ne by discriminate. exact Hda. }
  assert (Heig1 : env s1 !! "eig"%string = Some le).
  { cbn [s1 env]. rewrite !lookup_insert_ne by discriminate. exact Heig. }
  pose proof (cell15_run s1 l le da ds eig Hda1 (Hin _ _ Hl) Hds Heig1
                (Hin _ _ Hle) Hlen) as Hrun2.
  set (l2 := fresh (dom (heap s1))) in *.
  set (h2 := <[l2 := OFrame ds]> (heap s1)) in *.
  set (k2 := fresh (dom h2)) in *.
  assert (Hl2 : heap s1 !! l2 = None) by apply fresh_loc_None.
  assert (Hk2 : h2 !! k2 = None) by apply fresh_loc_None.
  assert (Hs1l1 : heap s1 !! l1 = Some (OFrame ds)).
  { cbn [s1 heap]. rewrite lookup_insert_ne by congruence.
    apply lookup_insert_eq. }
  assert (Hs1k1 : heap s1 !! k1 = Some (OArray sc)).
  { cbn [s1 heap]. apply lookup_insert_eq. }
  assert (Hl2l1 : l2 ≠ l1) by (intros Heq; rewrite Heq in Hl2; congruence).
  assert (Hl2k1 : l2 ≠ k1) by (intros Heq; rewrite Heq in Hl2; congruence).
  assert (Hk2l2 : k2 ≠ l2).
  { intros Heq. rewrite Heq in Hk2. unfold h2 in Hk2.
    rewrite lookup_insert_eq in Hk2. discriminate. }
  assert (Hk2k1 : k2 ≠ k1).
  { intros Heq. rewrite Heq in Hk2. unfold h2 in Hk2.
    rewrite lookup_insert_ne in Hk2 by congruence. congruence. }
  assert (Hk2l1 : k2 ≠ l1).
  { intros Heq. rewrite Heq in Hk2. unfold h2 in Hk2.
    rewrite lookup_insert_ne in Hk2 by congruence. congruence. }
  eexists s1, _, l1, l2, k1, k2, ds, sc.
  split; [exact Hrun1|]. split; [exact Hrun2|]. cbn [env heap].
  split; [cbn [s1 env]; rewrite lookup_insert_ne by discriminate;
          apply lookup_insert_eq|].
  split; [rewrite lookup_insert_ne by discriminate; apply lookup_insert_eq|].
  split; [cbn [s1 env]; apply lookup_insert_eq|].
  split; [apply lookup_insert_eq|].
  split; [exact (not_eq_sym Hl2l1)|]. split; [exact (not_eq_sym Hk2k1)|].
  split; [exact Hs1l1|].
  split; [fold h2; rewrite lookup_insert_ne by congruence; apply lookup_insert_eq|].
  split.
  { fold h2. rewrite lookup_insert_ne by congruence. unfold h2.
    rewrite lookup_insert_ne by congruence. exact Hs1l1. }
  split; [exact Hs1k1|]. split; [fold h2; apply lookup_insert_eq|].
  fold h2. rewrite lookup_insert_ne by congruence. unfold h2.
  rewrite lookup_insert_ne by congruence. exact Hs1k1.
Qed.

End Cell15Facts.

(** Cell 15 on a body-measures table. *)
Lemma cell15_KeyError_witness :
  cell15 nanmean nanstd (state_da_eig example_bmx eye6) =
  (Raise KeyError, state_da_eig example_bmx eye6).
Proof.
  apply (cell15_KeyError nanmean nanstd (state_da_eig example_bmx eye6)
           1%positive example_bmx "BPXSY1"%string).
  - vm_compute. reflexivity.
  - vm_compute. reflexivity.
  - apply (bool_decide_unpack _). vm_compute. exact I.
  - apply (bool_decide_unpack _). vm_compute. exact I.
Defined.

(** Cell 15 as the first cell that is run. *)
Lemma cell15_NameError_witness :
  cell15 nanmean nanstd state_before_cell3 =
  (Raise NameError, state_before_cell3).
Proof.
  apply (cell15_NameError nanmean nanstd state_before_cell3).
  vm_compute. reflexivity.
Defined.

(** Cell 15 with the three-column array of the sorting example for [eig]. *)
Lemma cell15_ValueError_witness :
  ∃ (s' : state) (l' : loc) (ds : DataFrame),
    cell15 nanmean nanstd (state_da_eig example_da example_eig) =
      (Raise ValueError, s') ∧
    standardized nanmean nanstd example_da = Some ds ∧
    env s' !! "ds"%string = Some l' ∧
    heap s' !! l' = Some (OFrame ds) ∧
    env s' !! "scores"%string =
      env (state_da_eig example_da example_eig) !! "scores"%string.
Proof.
  apply (cell15_ValueError nanmean nanstd (state_da_eig example_da example_eig)
           1%positive 2%positive example_da example_eig).
  - vm_compute. reflexivity.
  - vm_compute. reflexivity.
  - apply (bool_decide_unpack _). vm_compute. exact I.
  - vm_compute. reflexivity.
  - vm_compute. reflexivity.
  - vm_compute. lia.
Defined.

(** The shape of the scores of the filtered small table. *)
Lemma cell15_scores_shape_witness :
  ∃ (s' : state) (l' : loc) (sc : list (list float64)),
    cell15 nanmean nanstd (state_da_eig example_da eye6) = (Return tt, s') ∧
    env s' !! "scores"%string = Some l' ∧
    heap s' !! l' = Some (OArray sc) ∧
    length sc = length (rows example_da) ∧
    Forall (λ row, length row = ncols eye6) sc.
Proof.
  apply (cell15_scores_shape nanmean nanstd (state_da_eig example_da eye6)
           1%positive 2%positive example_da eye6).
  - vm_compute. reflexivity.
  - vm_compute. reflexivity.
  - apply (bool_decide_unpack _). vm_compute. exact I.
  - vm_compute. reflexivity.
  - vm_compute. reflexivity.
  - reflexivity.
Defined.

(** Cell 15 run twice on the filtered small table. *)
Lemma cell15_twice_witness :
  ∃ (s1 s2 : state) (l1 l2 k1 k2 : loc) (ds : DataFrame)
    (sc : list (list float64)),
    cell15 nanmean nanstd (state_da_eig example_da eye6) = (Return tt, s1) ∧
    cell15 nanmean nanstd s1 = (Return tt, s2) ∧
    env s1 !! "ds"%string = Some l1 ∧ env s2 !! "ds"%string = Some l2 ∧
    env s1 !! "scores"%string = Some k1 ∧ env s2 !! "scores"%string = Some k2 ∧
    l1 ≠ l2 ∧ k1 ≠ k2 ∧
    heap s1 !! l1 = Some (OFrame ds) ∧ heap s2 !! l2 = Some (OFrame ds) ∧
    heap s2 !! l1 = Some (OFrame ds) ∧
    heap s1 !! k1 = Some (OArray sc) ∧ heap s2 !! k2 = Some (OArray sc) ∧
    heap s2 !! k1 = Some (OArray sc).
Proof.
  apply (cell15_twice nanmean nanstd (state_da_eig example_da eye6)
           1%positive 2%positive example_da eye6).
  - vm_compute. reflexivity.
  - vm_compute. reflexivity.
  - apply (bool_decide_unpack _). vm_compute. exact I.
  - vm_compute. reflexivity.
  - vm_compute. reflexivity.
  - reflexivity.
Defined.

(** ** More on the sorting step *)

Lemma Forall2_Permutation_l {A B : Type} (R : A → B → Prop)
    (l l' : list A) (k : list B) :
  l ≡ₚ l' → Forall2 R l k → ∃ k', k ≡ₚ k' ∧ Forall2 R l' k'.
Proof.
  intros Hp. revert k.
  induction Hp as [|x l l' _ IH|x y l|l l' l'' _ IH1 _ IH2]; intros k Hk.
  - exists k. split; [reflexivity|exact Hk].
  - apply Forall2_cons_inv_l in Hk as (z & k0 & Hz & Hk0 & ->).
    destruct (IH k0 Hk0) as (k' & Hkk & Hk').
    exists (z :: k'). split; [constructor; exact Hkk|constructor; assumption].
  - apply Forall2_cons_inv_l in Hk as (z & k0 & Hz & Hk0 & ->).
    apply Forall2_cons_inv_l in Hk0 as (w & k1 & Hw & Hk1 & ->).
    exists (w :: z :: k1). split; [apply Permutation_swap|].
    repeat constructor; assumption.
  - destruct (IH1 k Hk) as (k' & Hkk & Hk').
    destruct (IH2 k' Hk') as (k'' & Hkk' & Hk'').
    exists k''. split; [etransitivity; eassumption|exact Hk''].
Qed.

Lemma Forall2_seq_lookup {A : Type} (v k : list A) :
  Forall2 (λ i x, v !! i = Some x) (seq 0 (length v)) k → k = v.
Proof.
  intros Hk. apply list_eq. intros i.
  pose proof (Forall2_length _ _ _ Hk) as Hlen. rewrite length_seq in Hlen.
  destruct (decide (i < length v)) as [Hi|Hi].
  - destruct (Forall2_lookup_l _ _ _ i i Hk) as (x & Hx & Hv).
    { apply lookup_seq. lia. }
    congruence.
  - rewrite !lookup_ge_None_2 by lia. reflexivity.
Qed.

(** Indexing with a permutation of all the indices only reorders. *)
Lemma take_idx_Permutation {A : Type} (v v' : list A) (ii : list nat) :
  ii ≡ₚ seq 0 (length v) → take_idx v ii = Some v' → v' ≡ₚ v.
Proof.
  intros Hp Ht. apply mapM_Some_1 in Ht.
  destruct (Forall2_Permutation_l _ _ _ _ Hp Ht) as (k & Hk & Hseq).
  apply Forall2_seq_lookup in Hseq. subst k. exact Hk.
Qed.

(** What the sorting step returns, when it returns. *)
Lemma sort_eig_inv (eiv eiv' : list float64) (eig eig' : list (list float64)) :
  sort_eig eiv eig = Some (eiv', eig') →
  take_idx eiv (reverse (argsort eiv)) = Some eiv' ∧
  mapM (λ row, take_idx row (reverse (argsort eiv))) eig = Some eig'.
Proof.
  unfold sort_eig. intros Hs.
  destruct (take_idx eiv (reverse (argsort eiv))) as [a|]; [|discriminate].
  cbn [mbind option_bind] in Hs.
  destruct (mapM _ eig) as [b|]; [|discriminate].
  cbn [mbind option_bind] in Hs. injection Hs as <- <-. auto.
Qed.

Lemma reverse_argsort_perm (v : list float64) :
  reverse (argsort v) ≡ₚ seq 0 (length v).
Proof. rewrite reverse_Permutation. apply argsort_perm. Qed.

(** X9. The sorting step only reorders: when it returns, the sorted
    eigenvalues are a permutation of the eigenvalues, and every row of the
    sorted array that was as long as the list of eigenvalues is a permutation
    of the row it comes from. *)
Theorem sort_eig_reorders (eiv eiv' : list float64)
    (eig eig' : list (list float64)) :
  sort_eig eiv eig = Some (eiv', eig') →
  eiv' ≡ₚ eiv ∧
  Forall2 (λ row row', length row = length eiv → row' ≡ₚ row) eig eig'.
Proof.
  intros Hs. apply sort_eig_inv in Hs as [Heiv Heig].
  split; [eapply take_idx_Permutation; [apply reverse_argsort_perm|exact Heiv]|].
  apply mapM_Some_1 in Heig. eapply Forall2_impl; [exact Heig|].
  intros row row' Ht Hlen. eapply take_idx_Permutation; [|exact Ht].
  rewrite Hlen. apply reverse_argsort_perm.
Qed.

Lemma sort_eig_reorders_witness :
  ∃ eiv' eig',
    sort_eig example_eiv example_eig = Some (eiv', eig') ∧
    eiv' ≡ₚ example_eiv ∧
    Forall2 (λ row row', length row = length example_eiv → row' ≡ₚ row)
      example_eig eig'.
Proof.
  eexists _, _. split; [vm_compute; reflexivity|].
  apply (sort_eig_reorders example_eiv _ example_eig).
  vm_compute. reflexivity.
Defined.

(** X10. The sorting step raises [IndexError] when a row of the array is
    shorter than the list of eigenvalues. *)
Theorem sort_eig_IndexError (eiv : list float64) (eig : list (list float64))
    (row : list float64) :
  row ∈ eig → length row < length eiv → sort_eig eiv eig = None.
Proof.
  intros Hrow Hlen. unfold sort_eig.
  destruct (take_idx eiv (reverse (argsort eiv))) as [a|]; [|reflexivity].
  cbn [mbind option_bind].
  assert (Hn : mapM (λ row, take_idx row (reverse (argsort eiv))) eig = None).
  { apply mapM_None, Exists_exists. exists row. split; [exact Hrow|].
    apply mapM_None, Exists_exists. exists (length row). split.
    - rewrite reverse_argsort_perm. apply elem_of_seq. lia.
    - apply lookup_ge_None_2. lia. }
  rewrite Hn. reflexivity.
Qed.

Lemma sort_eig_IndexError_witness :
  sort_eig example_eiv [ [B64.of_Z 1; B64.of_Z 2] ] = None.
Proof.
  apply (sort_eig_IndexError example_eiv _ [B64.of_Z 1; B64.of_Z 2]).
  - apply list_elem_of_singleton. reflexivity.
  - vm_compute. lia.
Defined.

Lemma Sorted_lookup_adjacent {A : Type} (R : A → A → Prop) (l : list A)
    (j : nat) (a b : A) :
  Sorted R l → l !! j = Some a → l !! S j = Some b → R a b.
Proof.
  intros Hs. revert j. induction Hs as [|x l Hs IH Hhd]; intros j Ha Hb.
  - discriminate.
  - destruct j as [|j]; simpl in Ha, Hb.
    + injection Ha as ->. destruct Hhd as [|y l Hxy]; [discriminate|].
      simpl in Hb. injection Hb as ->. exact Hxy.
    + eapply IH; eassumption.
Qed.

Lemma sort_eig_desc (eiv eiv' : list float64) :
  take_idx eiv (reverse (argsort eiv)) = Some eiv' →
  Sorted (λ a b, B64.sort_lt a b = false) eiv'.
Proof.
  intros Ht.
  set (L := isort (zip (seq 0 (length eiv)) eiv)).
  assert (HL : Forall (λ p, eiv !! fst p = Some (snd p)) (reverse L)).
  { rewrite reverse_Permutation. unfold L. rewrite isort_perm.
    apply zip_seq_lookup. }
  assert (Heq : take_idx eiv (reverse (argsort eiv)) = Some (snd <$> reverse L)).
  { unfold argsort. fold L. rewrite <- fmap_reverse. apply take_idx_pairs, HL. }
  rewrite Heq in Ht. injection Ht as <-.
  apply (Sorted_fmap snd (flip asc)); [|apply Sorted_reverse, isort_sorted].
  intros p q Hpq. exact Hpq.
Qed.

(** X11. After the sorting step the NaN eigenvalues, if there are any, come
    first: the entry before a NaN entry is itself NaN. *)
Theorem sort_eig_nan_first (eiv eiv' : list float64)
    (eig eig' : list (list float64)) (j : nat) (a b : float64) :
  sort_eig eiv eig = Some (eiv', eig') →
  eiv' !! j = Some a → eiv' !! S j = Some b →
  B64.is_nan b = true → B64.is_nan a = true.
Proof.
  intros Hs Ha Hb Hnan. apply sort_eig_inv in Hs as [Heiv _].
  pose proof (Sorted_lookup_adjacent _ _ j a b (sort_eig_desc _ _ Heiv) Ha Hb)
    as Hab.
  cbv beta in Hab. unfold B64.sort_lt in Hab. rewrite Hnan in Hab.
  apply orb_false_iff in Hab as [_ Hab]. simpl in Hab.
  destruct (B64.is_nan a); [reflexivity|discriminate].
Qed.

Lemma sort_eig_nan_first_witness :
  B64.is_nan B64.nan = true.
Proof.
  apply (sort_eig_nan_first [B64.of_Z 1; B64.nan; B64.nan] [B64.nan; B64.nan; B64.of_Z 1]
           [] [] 0 B64.nan B64.nan); vm_compute; reflexivity.
Defined.

(** ** More on the proportions of variance *)

Lemma mul_abs_abs (x : float64) :
  B64.mul (b64_abs x) (b64_abs x) = B64.mul x x.
Proof. destruct x as [s|s| |s m e]; try reflexivity; destruct s; reflexivity. Qed.

(** X12. In binary64 the proportions depend on the magnitudes of the
    eigenvalues only: replacing every eigenvalue by its absolute value gives
    the same proportions, bit for bit. *)
Theorem variance_explained_abs (eiv : list float64) :
  variance_explained (b64_abs <$> eiv) = variance_explained eiv.
Proof.
  unfold variance_explained. rewrite <- !list_fmap_compose.
  assert (Hsq : (λ x : float64, num_mul x x) ∘ b64_abs <$> eiv
                = (λ x : float64, num_mul x x) <$> eiv).
  { apply list_fmap_ext. intros _ x _. apply mul_abs_abs. }
  rewrite !list_fmap_compose.
  rewrite (list_fmap_compose b64_abs (λ x : float64, num_mul x x)) in Hsq.
  rewrite Hsq. reflexivity.
Qed.

Lemma np_sum_zeros (n : nat) :
  np_sum (replicate n (S754_zero false)) = S754_zero false.
Proof.
  unfold np_sum. change (num_of_Z 0) with (S754_zero false).
  induction n as [|n IH]; [reflexivity|exact IH].
Qed.

(** X13. In binary64, when all the eigenvalues are zero, every proportion is
    NaN: the sum of the squares is zero and each quotient is 0/0. *)
Theorem variance_explained_zeros (eiv : list float64) :
  Forall (λ x, B64.is_zero x = true) eiv →
  variance_explained eiv = replicate (length eiv) B64.nan.
Proof.
  intros Hz. unfold variance_explained.
  assert (Hsq : (λ x : float64, num_mul x x) <$> eiv
                = replicate (length eiv) (S754_zero false)).
  { induction Hz as [|x l Hx _ IH]; [reflexivity|].
    rewrite fmap_cons, IH. cbn [length replicate]. f_equal.
    destruct x as [s| | |]; try discriminate. destruct s; reflexivity. }
  rewrite Hsq, np_sum_zeros, fmap_replicate. reflexivity.
Qed.

Lemma variance_explained_zeros_witness :
  variance_explained [S754_zero false; S754_zero true] =
  replicate 2 B64.nan.
Proof.
  apply (variance_explained_zeros [S754_zero false; S754_zero true]).
  repeat constructor.
Defined.

(** ** The groups of cell 25 and the lines of cell 27 *)

Lemma lt_m4_not_gt_4 (x : float64) :
  B64.ltb x (B64.of_Z (-4)) = true → B64.ltb (B64.of_Z 4) x = false.
Proof.
  destruct x as [s|s| |s m e]; try (destruct s); try reflexivity; discriminate.
Qed.

Lemma gt_3_not_lt_m1_5 (x : float64) :
  B64.ltb (B64.of_Z 3) x = true → B64.ltb x minus_1_5 = false.
Proof.
  destruct x as [s|s| |s m e]; try (destruct s); try reflexivity; discriminate.
Qed.

Lemma lt_m4_not_small (x : float64) :
  B64.ltb x (B64.of_Z (-4)) = true → B64.ltb (b64_abs x) (B64.of_Z 1) = false.
Proof.
  destruct x as [s|s| |s m e]; try (destruct s); try reflexivity; try discriminate.
  change (B64.of_Z (-4)) with (S754_finite true 4503599627370496 (-50)).
  change (B64.of_Z 1) with (S754_finite false 4503599627370496 (-52)).
  unfold B64.ltb, SFltb, b64_abs, SFabs, SFcompare.
  destruct (Z.compare_spec e (-50)); destruct (Z.compare_spec e (-52));
    try lia; try reflexivity; discriminate.
Qed.

Lemma gt_4_not_small (x : float64) :
  B64.ltb (B64.of_Z 4) x = true → B64.ltb (b64_abs x) (B64.of_Z 1) = false.
Proof.
  destruct x as [s|s| |s m e]; try (destruct s); try reflexivity; try discriminate.
  change (B64.of_Z 4) with (S754_finite false 4503599627370496 (-50)).
  change (B64.of_Z 1) with (S754_finite false 4503599627370496 (-52)).
  unfold B64.ltb, SFltb, b64_abs, SFabs, SFcompare.
  destruct (Z.compare_spec (-50) e); destruct (Z.compare_spec e (-52));
    try lia; try reflexivity; discriminate.
Qed.

Lemma col_of_lookup (a : list (list float64)) (j : nat) (col : list float64) :
  col_of a j = Some col →
  length col = length a ∧
  ∀ k row, a !! k = Some row → ∃ x, row !! j = Some x ∧ col !! k = Some x.
Proof.
  unfold col_of. intros Hc. apply mapM_Some_1 in Hc. split.
  - symmetry. exact (Forall2_length _ _ _ Hc).
  - intros k row Hk.
    destruct (Forall2_lookup_l _ _ _ _ _ Hc Hk) as (x & Hx & Hr). eauto.
Qed.

(** The entries of the four boolean arrays, read off the two leading
    scores of an observation. *)
Lemma cell25_masks_lookup (scores : list (list float64)) (g : groups)
    (k : nat) (row : list float64) :
  cell25_masks scores = Some g → scores !! k = Some row →
  ∃ x0 x1, row !! 0 = Some x0 ∧ row !! 1 = Some x1 ∧
    i0 g !! k = Some (B64.ltb x0 (B64.of_Z (-4)) && B64.ltb (b64_abs x1) (B64.of_Z 1)) ∧
    i1 g !! k = Some (B64.ltb (B64.of_Z 4) x0 && B64.ltb (b64_abs x1) (B64.of_Z 1)) ∧
    i2 g !! k = Some (B64.ltb (B64.of_Z 3) x1 && B64.ltb (b64_abs x0) (B64.of_Z 1)) ∧
    i3 g !! k = Some (B64.ltb x1 minus_1_5 && B64.ltb (b64_abs x0) (B64.of_Z 1)).
Proof.
  unfold cell25_masks. intros Hg Hk.
  destruct (col_of scores 0) as [s0|] eqn:H0; [|discriminate].
  destruct (col_of scores 1) as [s1|] eqn:H1; [|discriminate].
  cbn in Hg. injection Hg as <-. cbn [i0 i1 i2 i3].
  destruct (col_of_lookup _ _ _ H0) as [_ L0].
  destruct (col_of_lookup _ _ _ H1) as [_ L1].
  destruct (L0 k row Hk) as (x0 & Hx0 & Hs0).
  destruct (L1 k row Hk) as (x1 & Hx1 & Hs1).
  exists x0, x1. rewrite !lookup_zip_with, !list_lookup_fmap, Hs0, Hs1.
  repeat split; try assumption; reflexivity.
Qed.

Lemma cell25_masks_length (scores : list (list float64)) (g : groups) (c : colour) :
  cell25_masks scores = Some g → length (mask_of c g) = length scores.
Proof.
  unfold cell25_masks. intros Hg.
  destruct (col_of scores 0) as [s0|] eqn:H0; [|discriminate].
  destruct (col_of scores 1) as [s1|] eqn:H1; [|discriminate].
  cbn in Hg. injection Hg as <-.
  destruct (col_of_lookup _ _ _ H0) as [E0 _].
  destruct (col_of_lookup _ _ _ H1) as [E1 _].
  destruct c; cbn [mask_of i0 i1 i2 i3];
    rewrite length_zip_with, !length_fmap; lia.
Qed.

Lemma cell25_masks_inv (scores : list (list float64)) (g : groups)
    (c : colour) (k : nat) (b : bool) :
  cell25_masks scores = Some g → mask_of c g !! k = Some b →
  ∃ row, scores !! k = Some row.
Proof.
  intros Hg Hb. apply lookup_lt_Some in Hb.
  rewrite (cell25_masks_length _ _ c Hg) in Hb.
  apply lookup_lt_is_Some_2 in Hb. destruct Hb as [row Hrow]. eauto.
Qed.

(** X16. The four groups of cell 25 are pairwise disjoint: no observation is
    in two of them, so cell 27 draws each profile in one colour at most. *)
Theorem cell25_masks_disjoint (scores : list (list float64)) (g : groups)
    (c1 c2 : colour) (k : nat) :
  cell25_masks scores = Some g →
  mask_of c1 g !! k = Some true → mask_of c2 g !! k = Some true → c1 = c2.
Proof.
  intros Hg H1 H2.
  destruct (cell25_masks_inv _ _ _ _ _ Hg H1) as [row Hrow].
  destruct (cell25_masks_lookup _ _ _ _ Hg Hrow)
    as (x0 & x1 & _ & _ & G0 & G1 & G2 & G3).
  destruct c1, c2; try reflexivity; cbn [mask_of] in H1, H2;
    repeat match goal with
    | H : ?m !! k = Some true, G : ?m !! k = Some (_ && _) |- _ =>
      rewrite G in H; clear G
    end;
    apply (inj Some) in H1; apply (inj Some) in H2;
    apply andb_prop in H1 as [A1 B1]; apply andb_prop in H2 as [A2 B2];
    exfalso;
    first [ apply lt_m4_not_gt_4 in A1; congruence
          | apply lt_m4_not_gt_4 in A2; congruence
          | apply lt_m4_not_small in A1; congruence
          | apply lt_m4_not_small in A2; congruence
          | apply gt_4_not_small in A1; congruence
          | apply gt_4_not_small in A2; congruence
          | apply gt_3_not_lt_m1_5 in A1; congruence
          | apply gt_3_not_lt_m1_5 in A2; congruence ].
Qed.

Lemma cell25_masks_disjoint_witness :
  cell25_masks (frame_values example_ds) = Some example_groups ∧
  Purple = Purple.
Proof.
  split; [reflexivity|].
  apply (cell25_masks_disjoint (frame_values example_ds) example_groups
           Purple Purple 0); reflexivity.
Defined.

(** X17. An observation one of whose two leading scores is NaN is in none of
    the four groups. *)
Theorem cell25_masks_nan (scores : list (list float64)) (g : groups)
    (k : nat) (row : list float64) (j : nat) (x : float64) (c : colour) :
  cell25_masks scores = Some g → scores !! k = Some row →
  j < 2 → row !! j = Some x → B64.is_nan x = true →
  mask_of c g !! k = Some false.
Proof.
  intros Hg Hrow Hj Hx Hnan.
  destruct (cell25_masks_lookup _ _ _ _ Hg Hrow)
    as (x0 & x1 & E0 & E1 & G0 & G1 & G2 & G3).
  assert (Hcase : B64.is_nan x0 = true ∨ B64.is_nan x1 = true).
  { destruct j as [|[|j]]; [left|right|lia]; congruence. }
  destruct Hcase as [N|N]; [destruct x0|destruct x1]; try discriminate;
    destruct c; cbn [mask_of]; rewrite ?G0, ?G1, ?G2, ?G3; f_equal;
    cbn; rewrite ?andb_false_r; reflexivity.
Qed.

Lemma cell25_masks_nan_witness :
  mask_of Lime {| i0 := [false]; i1 := [false]; i2 := [false]; i3 := [false] |}
    !! 0 = Some false.
Proof.
  apply (cell25_masks_nan [[B64.of_Z 0; B64.nan]] _ 0 [B64.of_Z 0; B64.nan]
           1 B64.nan Lime); try reflexivity. lia.
Defined.

Lemma flatnonzero_from_elem_of (mask : list bool) (k i : nat) :
  i ∈ flatnonzero_from k mask ↔ k ≤ i ∧ mask !! (i - k) = Some true.
Proof.
  revert k. induction mask as [|b mask IH]; intros k; cbn [flatnonzero_from].
  - rewrite elem_of_nil, lookup_nil. split; [tauto|intros [_ ?]; discriminate].
  - assert (Hrest : i ∈ flatnonzero_from (S k) mask ↔
                    k < i ∧ (b :: mask) !! (i - k) = Some true).
    { rewrite IH. split.
      - intros [Hle Hm]. split; [lia|].
        replace (i - k) with (S (i - S k)) by lia. exact Hm.
      - intros [Hlt Hm]. split; [lia|].
        replace (i - k) with (S (i - S k)) in Hm by lia. exact Hm. }
    destruct b.
    + rewrite elem_of_cons, Hrest. split.
      * intros [->|[Hlt Hm]]; [|split; [lia|exact Hm]].
        split; [lia|]. rewrite Nat.sub_diag. reflexivity.
      * intros [Hle Hm]. destruct (decide (i = k)) as [->|Hne]; [left; reflexivity|].
        right. split; [lia|exact Hm].
    + rewrite Hrest. split.
      * intros [Hlt Hm]. split; [lia|exact Hm].
      * intros [Hle Hm]. destruct (decide (i = k)) as [->|Hne].
        -- rewrite Nat.sub_diag in Hm. discriminate.
        -- split; [lia|exact Hm].
Qed.

Lemma flatnonzero_elem_of (mask : list bool) (i : nat) :
  i ∈ flatnonzero mask ↔ mask !! i = Some true.
Proof.
  unfold flatnonzero. rewrite flatnonzero_from_elem_of, Nat.sub_0_r.
  split; [intros [_ ?]; assumption|intros ?; split; [lia|assumption]].
Qed.

(** The lines one loop of cell 27 draws, when the boolean array is not longer
    than the table. *)
Lemma plot_group_Some (ds : DataFrame) (c : colour) (mask : list bool) :
  length mask ≤ length (rows ds) →
  ∃ lines, plot_group ds c mask = Some lines ∧
    ∀ c' r, (c', r) ∈ lines ↔
      c' = c ∧ ∃ i, mask !! i = Some true ∧ iloc_row ds i = Some r.
Proof.
  intros Hlen. unfold plot_group.
  destruct (mapM (λ i, (λ r, (c, r)) <$> iloc_row ds i) (flatnonzero mask))
    as [lines|] eqn:Hm.
  - exists lines. split; [reflexivity|]. apply mapM_Some_1 in Hm.
    intros c' r. split.
    + intros Hin. apply list_elem_of_lookup in Hin as [n Hn].
      destruct (Forall2_lookup_r _ _ _ _ _ Hm Hn) as (i & Hi & Hr).
      apply list_elem_of_lookup_2, flatnonzero_elem_of in Hi.
      destruct (iloc_row ds i) as [r0|] eqn:Hrow; [|discriminate].
      cbn in Hr. injection Hr as <- <-. split; [reflexivity|]. eauto.
    + intros [-> (i & Hi & Hr)]. apply flatnonzero_elem_of in Hi.
      apply list_elem_of_lookup in Hi as [n Hn].
      destruct (Forall2_lookup_l _ _ _ _ _ Hm Hn) as (y & Hy & Hf).
      rewrite Hr in Hf. cbn in Hf. injection Hf as <-.
      apply list_elem_of_lookup_2 in Hy. exact Hy.
  - exfalso. apply mapM_None in Hm. apply Exists_exists in Hm as (i & Hi & Hn).
    apply flatnonzero_elem_of, lookup_lt_Some in Hi.
    unfold iloc_row in Hn.
    destruct (lookup_lt_is_Some_2 (rows ds) i) as [r Hr]; [lia|].
    rewrite Hr in Hn. discriminate.
Qed.

(** One loop of cell 27 when the boolean array selects a position past the
    last row of the table. *)
Lemma plot_group_None (ds : DataFrame) (c : colour) (mask : list bool) (i : nat) :
  mask !! i = Some true → length (rows ds) ≤ i → plot_group ds c mask = None.
Proof.
  intros Hi Hlen. unfold plot_group. apply mapM_None, Exists_exists.
  exists i. split; [apply flatnonzero_elem_of, Hi|].
  unfold iloc_row. rewrite (lookup_ge_None_2 (rows ds) i Hlen). reflexivity.
Qed.

(** X18. Cell 27 on the groups of the scores of [ds]: no loop indexes past
    the last row, and the figure holds exactly the selected profiles, a row
    of [ds] being drawn in a colour when, and only when, the boolean array of
    that colour is true at its position. *)
Theorem cell27_draws_groups (ds : DataFrame) (eig : list (list float64))
    (g : groups) :
  cell25_masks (matmul (frame_values ds) eig) = Some g →
  ∃ fig, cell27 ds g = Some fig ∧
    ∀ c r, (c, r) ∈ fig ↔
      ∃ i, mask_of c g !! i = Some true ∧ iloc_row ds i = Some r.
Proof.
  intros Hg.
  assert (Hlen : ∀ c, length (mask_of c g) ≤ length (rows ds)).
  { intros c. rewrite (cell25_masks_length _ _ c Hg).
    unfold matmul, frame_values. rewrite !length_fmap. lia. }
  destruct (plot_group_Some ds Purple _ (Hlen Purple)) as (a & Ha & Pa).
  destruct (plot_group_Some ds Orange _ (Hlen Orange)) as (b & Hb & Pb).
  destruct (plot_group_Some ds Lime _ (Hlen Lime)) as (c0 & Hc & Pc).
  destruct (plot_group_Some ds Yellow _ (Hlen Yellow)) as (d & Hd & Pd).
  cbn [mask_of] in Ha, Hb, Hc, Hd.
  exists (a ++ b ++ c0 ++ d). split.
  { unfold cell27. rewrite Ha, Hb, Hc, Hd. reflexivity. }
  intros c r. rewrite !elem_of_app, Pa, Pb, Pc, Pd. split.
  - intros [[-> H]|[[-> H]|[[-> H]|[-> H]]]]; exact H.
  - intros H. destruct c; [left|right; left|right; right; left|right; right; right];
      (split; [reflexivity|exact H]).
Qed.

Lemma cell27_draws_groups_witness :
  ∃ fig, cell27 example_ds example_groups = Some fig ∧
    ∀ c r, (c, r) ∈ fig ↔
      ∃ i, mask_of c example_groups !! i = Some true ∧
           iloc_row example_ds i = Some r.
Proof. apply (cell27_draws_groups example_ds eye6 example_groups). reflexivity. Defined.

(** X19. Cell 27 when a boolean array is true at a position past the last
    row of [ds], as it is when [scores] was computed from a longer table than
    the one [ds] holds now: the cell fails with [IndexError]. *)
Theorem cell27_IndexError (ds : DataFrame) (g : groups) (c : colour) (i : nat) :
  mask_of c g !! i = Some true → length (rows ds) ≤ i → cell27 ds g = None.
Proof.
  intros Hi Hlen. unfold cell27.
  destruct c; cbn [mask_of] in Hi.
  - rewrite (plot_group_None ds Purple _ i Hi Hlen). reflexivity.
  - destruct (plot_group ds Purple (i0 g)); [|reflexivity]. cbn.
    rewrite (plot_group_None ds Orange _ i Hi Hlen). reflexivity.
  - destruct (plot_group ds Purple (i0 g)); [|reflexivity]. cbn.
    destruct (plot_group ds Orange (i1 g)); [|reflexivity]. cbn.
    rewrite (plot_group_None ds Lime _ i Hi Hlen). reflexivity.
  - destruct (plot_group ds Purple (i0 g)); [|reflexivity]. cbn.
    destruct (plot_group ds Orange (i1 g)); [|reflexivity]. cbn.
    destruct (plot_group ds Lime (i2 g)); [|reflexivity]. cbn.
    rewrite (plot_group_None ds Yellow _ i Hi Hlen). reflexivity.
Qed.

Lemma cell27_IndexError_witness :
  cell27 {| columns := bpx_vars; rows := [] |} example_groups = None.
Proof.
  apply (cell27_IndexError {| columns := bpx_vars; rows := [] |}
           example_groups Purple 0); [reflexivity|cbn; lia].
Defined.

(** ** More on the correlation matrix *)

Lemma frame_T_length (f : DataFrame) : length (frame_T f) = length (columns f).
Proof. unfold frame_T. rewrite length_fmap. apply length_seq. Qed.

(** X21. The correlation matrix of cell 5 and of cell 39, as binary64
    computes it from two or more columns of a table: it has one row and one
    column for each selected variable, and every entry is NaN or lies
    between -1 and 1. *)
Theorem frame_corrcoef_range (f : DataFrame) (vars : list string)
    (C : list (list float64)) :
  length vars ≠ 1 →
  frame_corrcoef f vars = Some C →
  length C = length vars ∧
  Forall (λ row, length row = length vars) C ∧
  ∀ i j a, entry C i j = Some a →
    B64.is_nan a = true ∨
    (B64.leb (B64.of_Z (-1)) a = true ∧ B64.leb a (B64.of_Z 1) = true).
Proof.
  intros Hk HC. unfold frame_corrcoef in HC.
  destruct (loc_cols f vars) as [g|] eqn:Hg; [|discriminate].
  cbn in HC. injection HC as <-.
  destruct (loc_cols_inv _ _ _ Hg) as (ps & _ & Hcols & _).
  assert (Hlen : length (frame_T g) = length vars).
  { rewrite frame_T_length, Hcols. reflexivity. }
  rewrite <- Hlen. apply corrcoef_b64_range. rewrite Hlen. exact Hk.
Qed.

Lemma frame_corrcoef_range_witness :
  ∃ C, frame_corrcoef example_da bpx_vars = Some C ∧ length C = 6.
Proof.
  eexists. split; [reflexivity|].
  apply (frame_corrcoef_range example_da bpx_vars); [cbn; lia|reflexivity].
Defined.

Lemma corrcoef_no_observations (X : list (list float64)) (i j : nat) (a : float64) :
  Forall (λ x, x = []) X →
  entry (corrcoef X) i j = Some a → B64.is_nan a = true.
Proof.
  intros Hall Ha.
  assert (Hn : ncols X = 0).
  { destruct Hall as [|x X' -> _]; reflexivity. }
  destruct (decide (length X = 1)) as [H1|H1].
  - destruct Hall as [|x X' -> Hall]; [discriminate|].
    destruct Hall; [|discriminate].
    destruct i as [|i]; [|discriminate]. destruct j as [|j]; [|discriminate].
    vm_compute in Ha. injection Ha as <-. reflexivity.
  - rewrite corrcoef_general, Hn in Ha by exact H1.
    apply entry_fmap2 in Ha as (xi & xj & Hi & Hj & ->).
    apply list_elem_of_lookup_2 in Hi, Hj.
    rewrite Forall_forall in Hall.
    rewrite (Hall xi Hi), (Hall xj Hj). reflexivity.
Qed.

Lemma all_nan_replicate (k : nat) (C : list (list float64)) :
  length C = k → Forall (λ row, length row = k) C →
  (∀ i j a, entry C i j = Some a → B64.is_nan a = true) →
  C = replicate k (replicate k B64.nan).
Proof.
  intros Hlen Hrows Hnan. apply list_eq_same_length with k;
    [apply length_replicate|exact Hlen|].
  intros i row row' Hi Hrow Hrow'.
  apply lookup_replicate in Hrow' as [-> _].
  assert (Hl : length row = k).
  { rewrite Forall_forall in Hrows. apply Hrows.
    exact (list_elem_of_lookup_2 _ _ _ Hrow). }
  apply list_eq_same_length with k; [apply length_replicate|exact Hl|].
  intros j a b Hj Ha Hb. apply lookup_replicate in Hb as [-> _].
  assert (He : entry C i j = Some a).
  { unfold entry. rewrite Hrow. exact Ha. }
  apply Hnan in He. destruct a; try discriminate. reflexivity.
Qed.

(** X22. The correlation matrix of a table without rows, which is what
    [dropna] leaves when every subject misses a value: in binary64 it is the
    square array in which every entry is NaN. *)
Theorem frame_corrcoef_no_rows (f : DataFrame) (vars : list string)
    (C : list (list float64)) :
  rows f = [] →
  frame_corrcoef f vars = Some C →
  C = replicate (length vars) (replicate (length vars) B64.nan).
Proof.
  intros Hrows HC. unfold frame_corrcoef in HC.
  destruct (loc_cols f vars) as [g|] eqn:Hg; [|discriminate].
  cbn in HC. injection HC as <-.
  destruct (loc_cols_inv _ _ _ Hg) as (ps & _ & Hcols & Hr).
  rewrite Hrows in Hr.
  assert (Hlen : length (frame_T g) = length vars).
  { rewrite frame_T_length, Hcols. reflexivity. }
  destruct (corrcoef_length (frame_T g)) as [L1 L2]. rewrite Hlen in L1, L2.
  apply all_nan_replicate; [exact L1|exact L2|].
  intros i j a. apply corrcoef_no_observations.
  unfold frame_T, column. rewrite Hr.
  apply Forall_fmap, Forall_forall. intros p _. reflexivity.
Qed.

Lemma frame_corrcoef_no_rows_witness :
  ∃ C, frame_corrcoef {| columns := selected_columns; rows := [] |} bpx_vars
       = Some C ∧
       C = replicate 6 (replicate 6 B64.nan).
Proof.
  eexists. split; [reflexivity|].
  apply (frame_corrcoef_no_rows {| columns := selected_columns; rows := [] |}
           bpx_vars); reflexivity.
Defined.

(** ** Cell 15 after cell 37 *)

Lemma cell37_load_run (s : state) (bmx : DataFrame) :
  files s !! "BMX_I.XPT"%string = Some bmx →
  cell37_load s =
  (Return tt,
   {| files := files s;
      env := <["da"%string := fresh (dom (heap s))]> (env s);
      heap := <[fresh (dom (heap s)) := OFrame bmx]> (heap s);
      stdout := stdout s |}).
Proof.
  intros Hf. unfold cell37_load.
  erewrite run_bind; [|unfold read_sas; rewrite Hf; reflexivity].
  reflexivity.
Qed.

(** X23. Cell 15 run again after cell 37 has bound [da] to the body-measures
    table, a table without the blood-pressure columns: the cell raises
    [KeyError].  All that the two cells have changed is the binding of [da]
    to the new table; the old table, [ds] and [scores] are as they were. *)
Theorem cell15_after_cell37 (col_mean col_std : list float64 → float64)
    (s : state) (bmx : DataFrame) (c : string) :
  files s !! "BMX_I.XPT"%string = Some bmx →
  c ∈ bpx_vars → c ∉ columns bmx →
  (_ ← cell37_load; cell15 col_mean col_std) s =
  (Raise KeyError,
   {| files := files s;
      env := <["da"%string := fresh (dom (heap s))]> (env s);
      heap := <[fresh (dom (heap s)) := OFrame bmx]> (heap s);
      stdout := stdout s |}).
Proof.
  intros Hf Hc Hnc.
  rewrite (run_bind _ _ s _ tt (cell37_load_run s bmx Hf)).
  unfold cell15. apply run_bind_raise.
  apply standardize_KeyError with (l := fresh (dom (heap s))) (da := bmx).
  - apply lookup_insert_eq.
  - apply lookup_insert_eq.
  - exact (standardized_None col_mean col_std bmx c Hc Hnc).
Qed.

Lemma cell15_after_cell37_witness :
  (_ ← cell37_load; cell15 nanmean nanstd) state_before_cell37 =
  (Raise KeyError,
   {| files := files state_before_cell37;
      env := <["da"%string := fresh (dom (heap state_before_cell37))]>
               (env state_before_cell37);
      heap := <[fresh (dom (heap state_before_cell37)) := OFrame example_bmx]>
                (heap state_before_cell37);
      stdout := [] |}).
Proof.
  apply (cell15_after_cell37 nanmean nanstd state_before_cell37 example_bmx
           "BPXSY1"%string).
  - vm_compute. reflexivity.
  - apply (bool_decide_unpack _). vm_compute. exact I.
  - apply (bool_decide_unpack _). vm_compute. exact I.
Defined.

(** ** Cell 49: the merged tables *)

Lemma cell_at_cell_of (f : DataFrame) (r : Row) (labels : list string)
    (ps : list nat) :
  Forall2 (λ c p, col_pos (columns f) c = Some p) labels ps →
  cell_at r <$> ps = cell_of f r <$> labels.
Proof.
  induction 1 as [|c p labels ps Hc _ IH]; [reflexivity|].
  rewrite !fmap_cons, IH. f_equal. unfold cell_of. rewrite Hc. reflexivity.
Qed.

(** The rows of a selection are the rows of the table, read under the
    selected labels. *)
Lemma loc_cols_rows (f g : DataFrame) (labels : list string) :
  loc_cols f labels = Some g →
  rows g = (λ r, {| row_label := row_label r;
                    cells := cell_of f r <$> labels |}) <$> rows f.
Proof.
  intros Hg. destruct (loc_cols_inv _ _ _ Hg) as (ps & Hps & _ & ->).
  apply list_fmap_ext. intros _ r _. unfold select_row.
  rewrite (cell_at_cell_of f r labels ps Hps). reflexivity.
Qed.

Lemma join_pairs_elem_of (left right : list Row) (pl pr : nat) (l r : Row) :
  (l, r) ∈ join_pairs left right pl pr ↔
  l ∈ left ∧ r ∈ right ∧ key_eq (cell_at l pl) (cell_at r pr) = true.
Proof.
  unfold join_pairs. rewrite list_elem_of_bind. split.
  - intros (l' & Hin & Hl'). apply list_elem_of_bind in Hin as (r' & Hin & Hr').
    apply list_elem_of_singleton in Hin. injection Hin as -> ->.
    apply list_elem_of_filter in Hr' as [Hk Hr']. auto.
  - intros (Hl & Hr & Hk). exists l. split; [|exact Hl].
    apply list_elem_of_bind. exists r. split; [apply list_elem_of_singleton; reflexivity|].
    apply list_elem_of_filter. auto.
Qed.

(** The selections of cell 49 from a merged table. *)
Lemma loc_cols_merged_bpx (rs : list Row) :
  loc_cols
    {| columns :=
         (suffixed "_x" (other_labels (bmx_vars ++ ["SEQN"%string]) "SEQN")
            <$> bpx_vars ++ ["SEQN"%string])
         ++ (suffixed "_y" (bpx_vars ++ ["SEQN"%string])
               <$> other_labels (bmx_vars ++ ["SEQN"%string]) "SEQN");
       rows := rs |} bpx_vars
  = Some {| columns := bpx_vars; rows := select_row [0; 1; 2; 3; 4; 5] <$> rs |}.
Proof. reflexivity. Qed.

Lemma loc_cols_merged_bmx (rs : list Row) :
  loc_cols
    {| columns :=
         (suffixed "_x" (other_labels (bmx_vars ++ ["SEQN"%string]) "SEQN")
            <$> bpx_vars ++ ["SEQN"%string])
         ++ (suffixed "_y" (bpx_vars ++ ["SEQN"%string])
               <$> other_labels (bmx_vars ++ ["SEQN"%string]) "SEQN");
       rows := rs |} bmx_vars
  = Some {| columns := bmx_vars;
            rows := select_row [7; 8; 9; 10; 11; 12; 13] <$> rs |}.
Proof. reflexivity. Qed.

(** The merge of cell 49 and the two selections that follow it: the key is
    in column 6 of the filtered blood-pressure table and in column 7 of the
    filtered body-measures table. *)
Lemma merge_then_select (a b : DataFrame) :
  columns a = bpx_vars ++ ["SEQN"%string] →
  columns b = bmx_vars ++ ["SEQN"%string] →
  ∃ m, merge a b "SEQN" = Some m ∧
    loc_cols m bpx_vars =
      Some {| columns := bpx_vars;
              rows := imap (λ i lr, {| row_label := Z.of_nat i;
                                       cells := cell_at lr.1 <$> [0; 1; 2; 3; 4; 5] |})
                        (join_pairs (rows a) (rows b) 6 7) |} ∧
    loc_cols m bmx_vars =
      Some {| columns := bmx_vars;
              rows := imap (λ i lr, {| row_label := Z.of_nat i;
                                       cells := cell_at lr.2 <$> [0; 1; 2; 3; 4; 5; 6] |})
                        (join_pairs (rows a) (rows b) 6 7) |}.
Proof.
  intros Hca Hcb. unfold merge. rewrite Hca, Hcb.
  assert (E1 : col_pos (bpx_vars ++ ["SEQN"%string]) "SEQN" = Some 6)
    by reflexivity.
  assert (E2 : col_pos (bmx_vars ++ ["SEQN"%string]) "SEQN" = Some 7)
    by reflexivity.
  rewrite E1, E2. cbn [mbind option_bind].
  eexists. split; [reflexivity|]. cbv zeta.
  rewrite loc_cols_merged_bpx, loc_cols_merged_bmx, !fmap_imap.
  split; do 2 f_equal; apply imap_ext; intros i [l r] _; reflexivity.
Qed.

Lemma cell49_tables_inv (f1 f2 x y : DataFrame) :
  cell49_tables f1 f2 = Some (x, y) →
  ∃ a b,
    loc_cols f1 (bpx_vars ++ ["SEQN"%string]) = Some a ∧
    loc_cols f2 (bmx_vars ++ ["SEQN"%string]) = Some b ∧
    columns x = bpx_vars ∧ columns y = bmx_vars ∧
    rows x = imap (λ i lr, {| row_label := Z.of_nat i;
                              cells := cell_at lr.1 <$> [0; 1; 2; 3; 4; 5] |})
               (join_pairs (rows (dropna a)) (rows (dropna b)) 6 7) ∧
    rows y = imap (λ i lr, {| row_label := Z.of_nat i;
                              cells := cell_at lr.2 <$> [0; 1; 2; 3; 4; 5; 6] |})
               (join_pairs (rows (dropna a)) (rows (dropna b)) 6 7).
Proof.
  unfold cell49_tables. intros H.
  destruct (loc_cols f1 (bpx_vars ++ ["SEQN"%string])) as [a|] eqn:Ha;
    [|discriminate].
  destruct (loc_cols f2 (bmx_vars ++ ["SEQN"%string])) as [b|] eqn:Hb;
    [|discriminate].
  cbn [mbind option_bind] in H. exists a, b.
  split; [reflexivity|]. split; [reflexivity|].
  destruct (loc_cols_inv _ _ _ Ha) as (ps1 & _ & Hca & _).
  destruct (loc_cols_inv _ _ _ Hb) as (ps2 & _ & Hcb & _).
  destruct (merge_then_select (dropna a) (dropna b)) as (m & Hm & Hx & Hy);
    [rewrite dropna_columns; exact Hca|rewrite dropna_columns; exact Hcb|].
  rewrite Hm in H. cbn [mbind option_bind] in H.
  rewrite Hx, Hy in H. cbn [mbind option_bind] in H.
  injection H as <- <-. repeat split; reflexivity.
Qed.

Lemma cell49_tables_is_Some (f1 f2 : DataFrame) :
  bpx_vars ++ ["SEQN"%string] ⊆ columns f1 →
  bmx_vars ++ ["SEQN"%string] ⊆ columns f2 →
  ∃ x y, cell49_tables f1 f2 = Some (x, y).
Proof.
  intros H1 H2. unfold cell49_tables.
  destruct (loc_cols_is_Some f1 _ H1) as [ps1 Hps1].
  destruct (loc_cols_is_Some f2 _ H2) as [ps2 Hps2].
  destruct (loc_cols f1 (bpx_vars ++ ["SEQN"%string])) as [a|] eqn:Ha.
  2:{ unfold loc_cols in Ha. rewrite Hps1 in Ha. discriminate. }
  destruct (loc_cols f2 (bmx_vars ++ ["SEQN"%string])) as [b|] eqn:Hb.
  2:{ unfold loc_cols in Hb. rewrite Hps2 in Hb. discriminate. }
  cbn [mbind option_bind].
  destruct (loc_cols_inv _ _ _ Ha) as (? & _ & Hca & _).
  destruct (loc_cols_inv _ _ _ Hb) as (? & _ & Hcb & _).
  destruct (merge_then_select (dropna a) (dropna b)) as (m & Hm & Hx & Hy);
    [rewrite dropna_columns; exact Hca|rewrite dropna_columns; exact Hcb|].
  rewrite Hm. cbn [mbind option_bind]. rewrite Hx, Hy. eauto.
Qed.

Lemma lookup_insert_fresh (h : gmap loc object) (l : loc) (o o' : object) :
  h !! l = Some o → <[fresh (dom h) := o']> h !! l = Some o.
Proof.
  intros Hl. rewrite lookup_insert_ne; [exact Hl|].
  intros <-. rewrite fresh_loc_None in Hl. discriminate.
Qed.

(** Cell 49 on two files: it returns, and leaves [bpx] and [bmx] bound to
    the two frames of [cell49_tables]. *)
Lemma cell49_run (s : state) (f1 f2 x y : DataFrame) :
  files s !! "BPX_I.XPT"%string = Some f1 →
  files s !! "BMX_I.XPT"%string = Some f2 →
  cell49_tables f1 f2 = Some (x, y) →
  ∃ s', cell49 s = (Return tt, s') ∧ bound s' "bpx" x ∧ bound s' "bmx" y.
Proof.
  intros Hf1 Hf2 Ht. unfold cell49_tables in Ht.
  destruct (loc_cols f1 (bpx_vars ++ ["SEQN"%string])) as [a|] eqn:Ha;
    [|discriminate].
  destruct (loc_cols f2 (bmx_vars ++ ["SEQN"%string])) as [b|] eqn:Hb;
    [|discriminate].
  cbn [mbind option_bind] in Ht.
  destruct (merge (dropna a) (dropna b) "SEQN") as [m|] eqn:Hm; [|discriminate].
  cbn [mbind option_bind] in Ht.
  destruct (loc_cols m bpx_vars) as [x'|] eqn:Hx; [|discriminate].
  destruct (loc_cols m bmx_vars) as [y'|] eqn:Hy; [|discriminate].
  cbn [mbind option_bind] in Ht. injection Ht as -> ->.
  unfold cell49.
  erewrite run_bind; [|unfold read_sas; rewrite Hf1; reflexivity].
  erewrite run_bind; [|reflexivity].
  erewrite run_bind; [|eapply run_name_frame; apply lookup_insert_eq].
  rewrite Ha.
  erewrite run_bind; [|reflexivity].
  erewrite run_bind; [|reflexivity].
  erewrite run_bind; [|reflexivity].
  cbn [files env heap stdout].
  erewrite run_bind; [|unfold read_sas; cbn [files]; rewrite Hf2; reflexivity].
  erewrite run_bind; [|reflexivity].
  cbn [files env heap stdout].
  erewrite run_bind; [|eapply run_name_frame; apply lookup_insert_eq].
  rewrite Hb.
  erewrite run_bind; [|reflexivity].
  erewrite run_bind; [|reflexivity].
  erewrite run_bind; [|reflexivity].
  cbn [files env heap stdout].
  erewrite run_bind.
  2:{ eapply run_name_frame; cbn [env heap].
      - rewrite !lookup_insert_ne by discriminate. apply lookup_insert_eq.
      - repeat first [apply lookup_insert_eq | apply lookup_insert_fresh]. }
  erewrite run_bind; [|eapply run_name_frame; apply lookup_insert_eq].
  rewrite Hm.
  erewrite run_bind; [|reflexivity].
  erewrite run_bind; [|reflexivity].
  erewrite run_bind; [|reflexivity].
  cbn [files env heap stdout].
  erewrite run_bind; [|eapply run_name_frame; apply lookup_insert_eq].
  rewrite Hx.
  erewrite run_bind; [|reflexivity].
  erewrite run_bind; [|reflexivity].
  erewrite run_bind; [|reflexivity].
  cbn [files env heap stdout].
  erewrite run_bind.
  2:{ eapply run_name_frame; cbn [env heap].
      - rewrite !lookup_insert_ne by discriminate. apply lookup_insert_eq.
      - repeat first [apply lookup_insert_eq | apply lookup_insert_fresh]. }
  rewrite Hy.
  erewrite run_bind; [|reflexivity].
  erewrite run_bind; [|reflexivity].
  eexists. split; [reflexivity|].
  unfold bound, assign; cbn [files env heap stdout]. split.
  - eexists. split.
    + rewrite lookup_insert_ne by discriminate. apply lookup_insert_eq.
    + repeat first [apply lookup_insert_eq | apply lookup_insert_fresh].
  - eexists. split.
    + apply lookup_insert_eq.
    + apply lookup_insert_eq.
Qed.

(** The rows of a filtered selection are the rows of the table without a
    missing value under the selected labels, read under these labels. *)
Lemma filtered_row (f a : DataFrame) (labels : list string) (l : Row) :
  loc_cols f labels = Some a →
  l ∈ rows (dropna a) ↔
  ∃ r, r ∈ rows f ∧
       l = {| row_label := row_label r; cells := cell_of f r <$> labels |} ∧
       Forall (λ v, B64.is_nan v = false) (cell_of f r <$> labels).
Proof.
  intros Ha. rewrite dropna_elem_of, (loc_cols_rows _ _ _ Ha), list_elem_of_fmap.
  unfold complete. split.
  - intros [(r & -> & Hr) Hc]. exists r. auto.
  - intros (r & Hr & -> & Hc). split; [exists r; auto|exact Hc].
Qed.

(** Cell 49 on two files that have the selected columns: it returns, and the
    rows of the frames it leaves in [bpx] and [bmx] are made, position by
    position, from the pairs of the join of the two filtered tables. *)
Lemma cell49_core (s : state) (f1 f2 : DataFrame) :
  files s !! "BPX_I.XPT"%string = Some f1 →
  files s !! "BMX_I.XPT"%string = Some f2 →
  bpx_vars ++ ["SEQN"%string] ⊆ columns f1 →
  bmx_vars ++ ["SEQN"%string] ⊆ columns f2 →
  ∃ s' x y a b,
    cell49 s = (Return tt, s') ∧ bound s' "bpx" x ∧ bound s' "bmx" y ∧
    loc_cols f1 (bpx_vars ++ ["SEQN"%string]) = Some a ∧
    loc_cols f2 (bmx_vars ++ ["SEQN"%string]) = Some b ∧
    columns x = bpx_vars ∧ columns y = bmx_vars ∧
    rows x = imap (λ i lr, {| row_label := Z.of_nat i;
                              cells := cell_at lr.1 <$> [0; 1; 2; 3; 4; 5] |})
               (join_pairs (rows (dropna a)) (rows (dropna b)) 6 7) ∧
    rows y = imap (λ i lr, {| row_label := Z.of_nat i;
                              cells := cell_at lr.2 <$> [0; 1; 2; 3; 4; 5; 6] |})
               (join_pairs (rows (dropna a)) (rows (dropna b)) 6 7).
Proof.
  intros Hf1 Hf2 H1 H2.
  destruct (cell49_tables_is_Some f1 f2 H1 H2) as (x & y & Ht).
  destruct (cell49_run s f1 f2 x y Hf1 Hf2 Ht) as (s' & Hrun & Bx & By).
  destruct (cell49_tables_inv f1 f2 x y Ht) as (a & b & Ha & Hb & Hrest).
  exists s', x, y, a, b. tauto.
Qed.

(** What a filtered row of the blood-pressure table holds. *)
Lemma bpx_filtered_cells (f : DataFrame) (r l : Row) :
  l = {| row_label := row_label r;
         cells := cell_of f r <$> bpx_vars ++ ["SEQN"%string] |} →
  cell_at l 6 = cell_of f r "SEQN" ∧
  cell_at l <$> [0; 1; 2; 3; 4; 5] = cell_of f r <$> bpx_vars.
Proof. intros ->. split; reflexivity. Qed.

Lemma bmx_filtered_cells (f : DataFrame) (r l : Row) :
  l = {| row_label := row_label r;
         cells := cell_of f r <$> bmx_vars ++ ["SEQN"%string] |} →
  cell_at l 7 = cell_of f r "SEQN" ∧
  cell_at l <$> [0; 1; 2; 3; 4; 5; 6] = cell_of f r <$> bmx_vars.
Proof. intros ->. split; reflexivity. Qed.

(** X24. Cell 49 on two files that have the selected columns: the cell
    returns, [bpx] and [bmx] are left bound to frames of the six and of the
    seven variables with equally many rows, numbered from zero, and row [i]
    of both belongs to one subject: there is a row of the blood-pressure
    file and a row of the body-measures file with the same [SEQN] whose
    values under the selected labels are the cells of the two rows. *)
Theorem cell49_pairs_subjects (s : state) (f1 f2 : DataFrame) :
  files s !! "BPX_I.XPT"%string = Some f1 →
  files s !! "BMX_I.XPT"%string = Some f2 →
  bpx_vars ++ ["SEQN"%string] ⊆ columns f1 →
  bmx_vars ++ ["SEQN"%string] ⊆ columns f2 →
  ∃ s' x y,
    cell49 s = (Return tt, s') ∧ bound s' "bpx" x ∧ bound s' "bmx" y ∧
    columns x = bpx_vars ∧ columns y = bmx_vars ∧
    length (rows x) = length (rows y) ∧
    ∀ i rx, rows x !! i = Some rx →
      ∃ ry r1 r2, rows y !! i = Some ry ∧
        row_label rx = Z.of_nat i ∧ row_label ry = Z.of_nat i ∧
        r1 ∈ rows f1 ∧ r2 ∈ rows f2 ∧
        key_eq (cell_of f1 r1 "SEQN") (cell_of f2 r2 "SEQN") = true ∧
        cells rx = cell_of f1 r1 <$> bpx_vars ∧
        cells ry = cell_of f2 r2 <$> bmx_vars.
Proof.
  intros Hf1 Hf2 H1 H2.
  destruct (cell49_core s f1 f2 Hf1 Hf2 H1 H2)
    as (s' & x & y & a & b & Hrun & Bx & By & Ha & Hb & Hcx & Hcy & Hrx & Hry).
  exists s', x, y. repeat (split; [assumption|]). split.
  { rewrite Hrx, Hry, !length_imap. reflexivity. }
  intros i rx Hi. rewrite Hrx in Hi.
  apply list_lookup_imap_Some in Hi as ([l r] & Hp & ->).
  pose proof (list_elem_of_lookup_2 _ _ _ Hp) as Hin.
  apply join_pairs_elem_of in Hin as (Hl & Hr & Hk).
  apply (filtered_row _ _ _ _ Ha) in Hl as (r1 & Hr1 & El & _).
  apply (filtered_row _ _ _ _ Hb) in Hr as (r2 & Hr2 & Er & _).
  destruct (bpx_filtered_cells f1 r1 l El) as [K1 C1].
  destruct (bmx_filtered_cells f2 r2 r Er) as [K2 C2].
  eexists _, r1, r2. split.
  { rewrite Hry, list_lookup_imap, Hp. reflexivity. }
  cbn [row_label cells fst snd]. rewrite <- K1, <- K2, C1, C2. auto 10.
Qed.

Lemma cell49_pairs_subjects_witness :
  ∃ s' x y,
    cell49 state_before_cell49 = (Return tt, s') ∧
    bound s' "bpx" x ∧ bound s' "bmx" y ∧
    columns x = bpx_vars ∧ columns y = bmx_vars ∧
    length (rows x) = length (rows y) ∧
    ∀ i rx, rows x !! i = Some rx →
      ∃ ry r1 r2, rows y !! i = Some ry ∧
        row_label rx = Z.of_nat i ∧ row_label ry = Z.of_nat i ∧
        r1 ∈ rows example_df ∧ r2 ∈ rows example_bmx ∧
        key_eq (cell_of example_df r1 "SEQN") (cell_of example_bmx r2 "SEQN")
          = true ∧
        cells rx = cell_of example_df r1 <$> bpx_vars ∧
        cells ry = cell_of example_bmx r2 <$> bmx_vars.
Proof.
  apply (cell49_pairs_subjects state_before_cell49 example_df example_bmx).
  - vm_compute. reflexivity.
  - vm_compute. reflexivity.
  - apply (bool_decide_unpack _). vm_compute. exact I.
  - apply (bool_decide_unpack _). vm_compute. exact I.
Defined.

(** X25. Cell 49 loses no subject that both files describe in full: a row
    of the blood-pressure file and a row of the body-measures file that have
    the same [SEQN] and no missing value under the selected labels are found
    side by side, at one position of [bpx] and [bmx]. *)
Theorem cell49_keeps_complete_subjects (s : state) (f1 f2 : DataFrame)
    (r1 r2 : Row) :
  files s !! "BPX_I.XPT"%string = Some f1 →
  files s !! "BMX_I.XPT"%string = Some f2 →
  bpx_vars ++ ["SEQN"%string] ⊆ columns f1 →
  bmx_vars ++ ["SEQN"%string] ⊆ columns f2 →
  r1 ∈ rows f1 → r2 ∈ rows f2 →
  Forall (λ v, B64.is_nan v = false)
         (cell_of f1 r1 <$> bpx_vars ++ ["SEQN"%string]) →
  Forall (λ v, B64.is_nan v = false)
         (cell_of f2 r2 <$> bmx_vars ++ ["SEQN"%string]) →
  key_eq (cell_of f1 r1 "SEQN") (cell_of f2 r2 "SEQN") = true →
  ∃ s' x y i rx ry,
    cell49 s = (Return tt, s') ∧ bound s' "bpx" x ∧ bound s' "bmx" y ∧
    rows x !! i = Some rx ∧ rows y !! i = Some ry ∧
    cells rx = cell_of f1 r1 <$> bpx_vars ∧
    cells ry = cell_of f2 r2 <$> bmx_vars.
Proof.
  intros Hf1 Hf2 H1 H2 Hr1 Hr2 Hc1 Hc2 Hk.
  destruct (cell49_core s f1 f2 Hf1 Hf2 H1 H2)
    as (s' & x & y & a & b & Hrun & Bx & By & Ha & Hb & Hcx & Hcy & Hrx & Hry).
  set (l := {| row_label := row_label r1;
               cells := cell_of f1 r1 <$> bpx_vars ++ ["SEQN"%string] |}).
  set (r := {| row_label := row_label r2;
               cells := cell_of f2 r2 <$> bmx_vars ++ ["SEQN"%string] |}).
  destruct (bpx_filtered_cells f1 r1 l eq_refl) as [K1 C1].
  destruct (bmx_filtered_cells f2 r2 r eq_refl) as [K2 C2].
  assert (Hin : (l, r) ∈ join_pairs (rows (dropna a)) (rows (dropna b)) 6 7).
  { apply join_pairs_elem_of. split; [|split].
    - apply (filtered_row _ _ _ _ Ha). exists r1. auto.
    - apply (filtered_row _ _ _ _ Hb). exists r2. auto.
    - rewrite K1, K2. exact Hk. }
  apply list_elem_of_lookup in Hin as [i Hi].
  eexists s', x, y, i, _, _. repeat (split; [eassumption|]).
  split; [rewrite Hrx, list_lookup_imap, Hi; reflexivity|].
  split; [rewrite Hry, list_lookup_imap, Hi; reflexivity|].
  cbn [cells fst snd]. rewrite C1, C2. auto.
Qed.

(** X26. Cell 49 hands complete tables on: no cell of the frames it leaves
    in [bpx] and [bmx] is missing. *)
Theorem cell49_no_missing (s : state) (f1 f2 : DataFrame) :
  files s !! "BPX_I.XPT"%string = Some f1 →
  files s !! "BMX_I.XPT"%string = Some f2 →
  bpx_vars ++ ["SEQN"%string] ⊆ columns f1 →
  bmx_vars ++ ["SEQN"%string] ⊆ columns f2 →
  ∃ s' x y,
    cell49 s = (Return tt, s') ∧ bound s' "bpx" x ∧ bound s' "bmx" y ∧
    Forall complete (rows x) ∧ Forall complete (rows y).
Proof.
  intros Hf1 Hf2 H1 H2.
  destruct (cell49_core s f1 f2 Hf1 Hf2 H1 H2)
    as (s' & x & y & a & b & Hrun & Bx & By & Ha & Hb & Hcx & Hcy & Hrx & Hry).
  exists s', x, y. repeat (split; [assumption|]).
  assert (Hpairs : ∀ l r,
    (l, r) ∈ join_pairs (rows (dropna a)) (rows (dropna b)) 6 7 →
    Forall (λ v, B64.is_nan v = false) (cell_at l <$> [0; 1; 2; 3; 4; 5]) ∧
    Forall (λ v, B64.is_nan v = false) (cell_at r <$> [0; 1; 2; 3; 4; 5; 6])).
  { intros l r Hin. apply join_pairs_elem_of in Hin as (Hl & Hr & _).
    apply (filtered_row _ _ _ _ Ha) in Hl as (r1 & _ & El & N1).
    apply (filtered_row _ _ _ _ Hb) in Hr as (r2 & _ & Er & N2).
    destruct (bpx_filtered_cells f1 r1 l El) as [_ ->].
    destruct (bmx_filtered_cells f2 r2 r Er) as [_ ->].
    rewrite fmap_app in N1, N2.
    apply Forall_app in N1 as [N1 _]. apply Forall_app in N2 as [N2 _]. auto. }
  rewrite Hrx, Hry. split; apply Forall_forall; intros row Hrow;
    apply list_elem_of_lookup in Hrow as [i Hi];
    apply list_lookup_imap_Some in Hi as ([l r] & Hp & ->);
    apply list_elem_of_lookup_2, Hpairs in Hp as [N1 N2]; assumption.
Qed.

Lemma cell49_keeps_complete_subjects_witness :
  ∃ s' x y i rx ry,
    cell49 state_before_cell49 = (Return tt, s') ∧
    bound s' "bpx" x ∧ bound s' "bmx" y ∧
    rows x !! i = Some rx ∧ rows y !! i = Some ry ∧
    cells rx =
      cell_of example_df
        (int_row 2 [83734; 66; 160; 138; 46; 132; 44; 136; 46]%Z) <$> bpx_vars ∧
    cells ry =
      cell_of example_bmx
        (int_row 1 [83734; 88; 171; 30; 38; 40; 33; 108]%Z) <$> bmx_vars.
Proof.
  apply (cell49_keeps_complete_subjects state_before_cell49
           example_df example_bmx
           (int_row 2 [83734; 66; 160; 138; 46; 132; 44; 136; 46]%Z)
           (int_row 1 [83734; 88; 171; 30; 38; 40; 33; 108]%Z)).
  - vm_compute. reflexivity.
  - vm_compute. reflexivity.
  - apply (bool_decide_unpack _). vm_compute. exact I.
  - apply (bool_decide_unpack _). vm_compute. exact I.
  - apply (list_elem_of_lookup_2 _ 2). reflexivity.
  - apply (list_elem_of_lookup_2 _ 1). reflexivity.
  - apply (bool_decide_unpack _). vm_compute. exact I.
  - apply (bool_decide_unpack _). vm_compute. exact I.
  - vm_compute. reflexivity.
Defined.

Lemma cell49_no_missing_witness :
  ∃ s' x y,
    cell49 state_before_cell49 = (Return tt, s') ∧
    bound s' "bpx" x ∧ bound s' "bmx" y ∧
    Forall complete (rows x) ∧ Forall complete (rows y).
Proof.
  apply (cell49_no_missing state_before_cell49 example_df example_bmx).
  - vm_compute. reflexivity.
  - vm_compute. reflexivity.
  - apply (bool_decide_unpack _). vm_compute. exact I.
  - apply (bool_decide_unpack _). vm_compute. exact I.
Defined.

(** *** Keys that occur once *)

Lemma SFeqb_finite (s s' : bool) (m m' : positive) (e e' : Z) :
  SFeqb (S754_finite s m e) (S754_finite s' m' e') = true →
  s = s' ∧ m = m' ∧ e = e'.
Proof.
  unfold SFeqb, SFcompare.
  change (Pos.compare_cont Eq m m') with (Pos.compare m m').
  destruct s, s'; try discriminate;
    destruct (Z.compare_spec e e') as [->| |]; try discriminate;
    destruct (Pos.compare_spec m m') as [->| |]; try discriminate;
    auto.
Qed.

Lemma key_eq_euclidean (a b c : float64) :
  key_eq a b = true → key_eq a c = true → key_eq b c = true.
Proof.
  unfold key_eq, B64.eqb.
  destruct a as [sa|sa| |sa ma ea], b as [sb|sb| |sb mb eb];
    try discriminate; try (destruct sa, sb; discriminate);
    destruct c as [sc|sc| |sc mc ec];
    try discriminate; try reflexivity;
    try (destruct sa, sb, sc; try discriminate; reflexivity).
  rewrite !orb_false_r. intros H1 H2.
  apply SFeqb_finite in H1 as (-> & -> & ->).
  exact H2.
Qed.

Lemma distinct_keys_filter {B : Type} (key : B → float64) (Q : B → Prop)
    `{∀ x, Decision (Q x)} (l : list B) :
  distinct_keys (key <$> l) = true → distinct_keys (key <$> filter Q l) = true.
Proof.
  induction l as [|x l IH]; [reflexivity|].
  rewrite fmap_cons. cbn [distinct_keys]. intros Hd.
  apply andb_prop in Hd as [Hx Hl]. rewrite filter_cons.
  destruct (decide (Q x)); [|exact (IH Hl)].
  rewrite fmap_cons. cbn [distinct_keys]. rewrite (IH Hl), andb_true_r.
  apply forallb_forall. intros k Hk. rewrite forallb_forall in Hx. apply Hx.
  apply list_elem_of_In. apply list_elem_of_In in Hk.
  apply list_elem_of_fmap in Hk as (y & -> & Hy).
  apply list_elem_of_filter in Hy as [_ Hy].
  apply list_elem_of_fmap. eauto.
Qed.

Lemma distinct_keys_matches {B : Type} (key : B → float64) (k : float64)
    (l : list B) :
  distinct_keys (key <$> l) = true →
  length (filter (λ r, key_eq k (key r) = true) l) ≤ 1.
Proof.
  induction l as [|x l IH]; [cbn; lia|].
  rewrite fmap_cons. cbn [distinct_keys]. intros Hd.
  apply andb_prop in Hd as [Hx Hl]. rewrite filter_cons.
  destruct (decide (key_eq k (key x) = true)) as [Hk|Hk]; [|exact (IH Hl)].
  destruct (filter (λ r, key_eq k (key r) = true) l) as [|y t] eqn:E;
    [cbn; lia|exfalso].
  assert (Hy : y ∈ filter (λ r, key_eq k (key r) = true) l)
    by (rewrite E; left).
  apply list_elem_of_filter in Hy as [Hky Hy].
  rewrite forallb_forall in Hx.
  assert (Hin : In (key y) (key <$> l)).
  { apply list_elem_of_In, list_elem_of_fmap. eauto. }
  apply Hx in Hin. rewrite (key_eq_euclidean k (key x) (key y) Hk Hky) in Hin.
  discriminate.
Qed.

Lemma join_pairs_length (left right : list Row) (pl pr : nat) :
  distinct_keys ((λ r, cell_at r pr) <$> right) = true →
  length (join_pairs left right pl pr) ≤ length left.
Proof.
  intros Hd. unfold join_pairs. induction left as [|l left IH]; [cbn; lia|].
  cbn [mbind list_bind]. rewrite length_app. cbn [length].
  pose proof (distinct_keys_matches (λ r, cell_at r pr) (cell_at l pl) right Hd)
    as Hle.
  assert (Hsingle : ∀ rs : list Row,
            length (rs ≫= λ r, [(l, r)]) = length rs).
  { induction rs as [|r rs IHr]; [reflexivity|].
    cbn [mbind list_bind]. rewrite length_app, IHr. reflexivity. }
  rewrite Hsingle. cbv beta in Hle. lia.
Qed.

(** X27. Cell 49 does not multiply subjects: when no two rows of the
    body-measures file have the same [SEQN], the frames left in [bpx] and
    [bmx] have at most as many rows as the blood-pressure file. *)
Theorem cell49_no_duplicate_subjects (s : state) (f1 f2 : DataFrame) :
  files s !! "BPX_I.XPT"%string = Some f1 →
  files s !! "BMX_I.XPT"%string = Some f2 →
  bpx_vars ++ ["SEQN"%string] ⊆ columns f1 →
  bmx_vars ++ ["SEQN"%string] ⊆ columns f2 →
  distinct_keys ((λ r, cell_of f2 r "SEQN") <$> rows f2) = true →
  ∃ s' x y,
    cell49 s = (Return tt, s') ∧ bound s' "bpx" x ∧ bound s' "bmx" y ∧
    length (rows x) ≤ length (rows f1) ∧ length (rows y) ≤ length (rows f1).
Proof.
  intros Hf1 Hf2 H1 H2 Hd.
  destruct (cell49_core s f1 f2 Hf1 Hf2 H1 H2)
    as (s' & x & y & a & b & Hrun & Bx & By & Ha & Hb & Hcx & Hcy & Hrx & Hry).
  exists s', x, y. repeat (split; [assumption|]).
  rewrite Hrx, Hry, !length_imap.
  assert (Hlen : length (join_pairs (rows (dropna a)) (rows (dropna b)) 6 7)
                 ≤ length (rows f1)).
  { etransitivity; [apply join_pairs_length|].
    - unfold dropna; cbn [rows]. rewrite (loc_cols_rows _ _ _ Hb).
      apply distinct_keys_filter. rewrite <- list_fmap_compose.
      erewrite list_fmap_ext; [exact Hd|].
      intros _ r _. unfold compose.
      exact (proj1 (bmx_filtered_cells f2 r _ eq_refl)).
    - unfold dropna; cbn [rows]. rewrite (loc_cols_rows _ _ _ Ha).
      etransitivity; [apply length_filter|]. rewrite length_fmap. reflexivity. }
  split; exact Hlen.
Qed.

Lemma cell49_no_duplicate_subjects_witness :
  ∃ s' x y,
    cell49 state_before_cell49 = (Return tt, s') ∧
    bound s' "bpx" x ∧ bound s' "bmx" y ∧
    length (rows x) ≤ length (rows example_df) ∧
    length (rows y) ≤ length (rows example_df).
Proof.
  apply (cell49_no_duplicate_subjects state_before_cell49 example_df example_bmx).
  - vm_compute. reflexivity.
  - vm_compute. reflexivity.
  - apply (bool_decide_unpack _). vm_compute. exact I.
  - apply (bool_decide_unpack _). vm_compute. exact I.
  - vm_compute. reflexivity.
Defined.

(** ** Cell 49 without the second file *)

(** X30. Cell 49 when the body-measures file is not there: the cell raises
    [FileNotFoundError] after it has bound [df] to the blood-pressure table
    and [bpx] to the filtered table of seven columns; [bmx] and [bpmx] are
    bound as they were before the cell. *)
Theorem cell49_FileNotFoundError (s : state) (f1 : DataFrame) :
  files s !! "BPX_I.XPT"%string = Some f1 →
  files s !! "BMX_I.XPT"%string = None →
  bpx_vars ++ ["SEQN"%string] ⊆ columns f1 →
  ∃ s' a,
    cell49 s = (Raise FileNotFoundError, s') ∧
    bound s' "df" f1 ∧ bound s' "bpx" (dropna a) ∧
    loc_cols f1 (bpx_vars ++ ["SEQN"%string]) = Some a ∧
    env s' !! "bmx"%string = env s !! "bmx"%string ∧
    env s' !! "bpmx"%string = env s !! "bpmx"%string.
Proof.
  intros Hf1 Hf2 H1.
  destruct (loc_cols_is_Some f1 _ H1) as [ps Hps].
  destruct (loc_cols f1 (bpx_vars ++ ["SEQN"%string])) as [a|] eqn:Ha.
  2:{ unfold loc_cols in Ha. rewrite Hps in Ha. discriminate. }
  unfold cell49.
  erewrite run_bind; [|unfold read_sas; rewrite Hf1; reflexivity].
  erewrite run_bind; [|reflexivity].
  erewrite run_bind; [|eapply run_name_frame; apply lookup_insert_eq].
  rewrite Ha.
  erewrite run_bind; [|reflexivity].
  erewrite run_bind; [|reflexivity].
  erewrite run_bind; [|reflexivity].
  cbn [files env heap stdout].
  erewrite run_bind_raise; [|unfold read_sas; cbn [files]; rewrite Hf2; reflexivity].
  eexists _, a. split; [reflexivity|].
  unfold bound; cbn [files env heap stdout].
  split; [|split; [|split; [reflexivity|split]]].
  - eexists. split.
    + rewrite lookup_insert_ne by discriminate. apply lookup_insert_eq.
    + repeat first [apply lookup_insert_eq | apply lookup_insert_fresh].
  - eexists. split; apply lookup_insert_eq.
  - rewrite !lookup_insert_ne by discriminate. reflexivity.
  - rewrite !lookup_insert_ne by discriminate. reflexivity.
Qed.

Lemma cell49_FileNotFoundError_witness :
  ∃ s' a,
    cell49 state_without_bmx = (Raise FileNotFoundError, s') ∧
    bound s' "df" example_df ∧ bound s' "bpx" (dropna a) ∧
    loc_cols example_df (bpx_vars ++ ["SEQN"%string]) = Some a ∧
    env s' !! "bmx"%string = env state_without_bmx !! "bmx"%string ∧
    env s' !! "bpmx"%string = env state_without_bmx !! "bpmx"%string.
Proof.
  apply (cell49_FileNotFoundError state_without_bmx example_df).
  - vm_compute. reflexivity.
  - vm_compute. reflexivity.
  - apply (bool_decide_unpack _). vm_compute. exact I.
Defined.
